(** * The policy layer of [administration_system.api.postgres_api]

    A shallow embedding of the [PostgresAPI] class: the relational store is a
    record of four tables (lists of rows, in insertion order), every method is
    a computation in a state-and-exception monad over that record, and the
    nine public operations return what the Python methods return: a JSON
    envelope, Python's [None], or an exception that leaves the method.

    Conventions of the model.
    - Requests carry POSIX timestamps that [datetime.fromtimestamp] accepts;
      the process runs in UTC, so local time is UTC.
    - The f-strings splice integers and quote-free strings into the SQL text;
      the model passes the same values to the store directly.
    - A statement the store rejects changes no table.  The batch runner stops
      at the first exception that leaves an operation, so nothing is ever
      executed after a rejected statement.
    - Exception messages are dropped: the operations never show them.
    - Outside these conventions the program has further exceptions, which the
      model leaves out: [ValueError] of [datetime.fromtimestamp] on a
      timestamp out of range, and the store's [DataError] and
      [ProgrammingError] on values or SQL text it cannot read.  No statement
      below is about the set of all exceptions. *)

From Stdlib Require Import ZArith List String Ascii Bool Lia Sorted Permutation.
Import ListNotations.
Open Scope string_scope.
Open Scope list_scope.
Open Scope Z_scope.

(** ** Dates *)

Record datetime := mkDatetime {
  year : Z; month : Z; day : Z; hour : Z; minute : Z; second : Z }.

(** [datetime.fromtimestamp] for a process in UTC: the proleptic Gregorian
    date of a count of seconds since 1970-01-01T00:00:00. *)
Definition fromtimestamp (timestamp : Z) : datetime :=
  let days := timestamp / 86400 in
  let secs := timestamp mod 86400 in
  let z := days + 719468 in
  let era := z / 146097 in
  let doe := z - era * 146097 in
  let yoe := (doe - doe / 1460 + doe / 36524 - doe / 146096) / 365 in
  let doy := doe - (365 * yoe + yoe / 4 - yoe / 100) in
  let mp := (5 * doy + 2) / 153 in
  let d := doy - (153 * mp + 2) / 5 + 1 in
  let m := if mp <? 10 then mp + 3 else mp - 9 in
  let y := yoe + era * 400 + (if m <=? 2 then 1 else 0) in
  mkDatetime y m d (secs / 3600) (secs mod 3600 / 60) (secs mod 60).

Definition datetime_eqb (a b : datetime) : bool :=
  (year a =? year b) && (month a =? month b) && (day a =? day b) &&
  (hour a =? hour b) && (minute a =? minute b) && (second a =? second b).

(** ** Rows and tables *)

Inductive rank := regular | leader_rank.

Definition rank_name (r : rank) : string :=
  match r with regular => "regular" | leader_rank => "leader" end.

Inductive action_type := support_type | protest_type.

Definition action_type_name (t : action_type) : string :=
  match t with support_type => "support" | protest_type => "protest" end.

Inductive direction := up | down.

Definition direction_name (d : direction) : string :=
  match d with up => "up" | down => "down" end.

(** [member(id, password, rank, activity_date)]: the four values of
    [INSERT INTO member VALUES (...)], the date last ([fetchone()[-1]]). *)
Record member_row := mkMember {
  m_id : Z; m_password : string; m_rank : rank; m_activity_date : datetime }.

(** [project(id, id_leader, creation_date)]. *)
Record project_row := mkProject {
  p_id : Z; p_id_leader : Z; p_creation_date : datetime }.

(** [action(id, id_project, id_member, type, creation_date, upvotes,
    downvotes)]: the five inserted values, then the two counters that every
    query reads unqualified; [action] is the one table present in each of
    those queries. *)
Record action_row := mkAction {
  a_id : Z; a_id_project : Z; a_id_member : Z; a_type : action_type;
  a_creation_date : datetime; a_upvotes : Z; a_downvotes : Z }.

(** [vote(id_member, id_action, direction, creation_date)]. *)
Record vote_row := mkVote {
  v_id_member : Z; v_id_action : Z; v_direction : direction;
  v_creation_date : datetime }.

Record db := mkDb {
  member_tbl : list member_row;
  project_tbl : list project_row;
  action_tbl : list action_row;
  vote_tbl : list vote_row }.

Definition empty_db : db := mkDb [] [] [] [].

(** What a SQL expression evaluates to. *)
Inductive value :=
| VInt (z : Z)
| VStr (s : string)
| VBool (b : bool)
| VTime (t : datetime).

Definition value_eqb (a b : value) : bool :=
  match a, b with
  | VInt x, VInt y => x =? y
  | VStr x, VStr y => String.eqb x y
  | VBool x, VBool y => Bool.eqb x y
  | VTime x, VTime y => datetime_eqb x y
  | _, _ => false
  end.

(** ** Exceptions

    [InvalidMember] and [InvalidRowCount] derive from [DatabaseException],
    itself a [psycopg2.InternalError].  A violated key makes psycopg2 raise
    [IntegrityError], a sibling of [InternalError] under [DatabaseError]. *)
Inductive exn := InvalidMember | InvalidRowCount | IntegrityError.

Definition is_DatabaseException (e : exn) : bool :=
  match e with InvalidMember | InvalidRowCount => true | IntegrityError => false end.

Definition is_InternalError (e : exn) : bool :=
  match e with InvalidMember | InvalidRowCount => true | IntegrityError => false end.

Definition is_InvalidRowCount (e : exn) : bool :=
  match e with InvalidRowCount => true | _ => false end.

(** ** Computations over the store *)

Inductive result (A : Type) :=
| Ok (a : A)
| Raise (e : exn).
Arguments Ok {A} a.
Arguments Raise {A} e.

Definition M (A : Type) : Type := db -> result A * db.

Definition ret {A} (a : A) : M A := fun st => (Ok a, st).

Definition raise {A} (e : exn) : M A := fun st => (Raise e, st).

Definition bind {A B} (m : M A) (k : A -> M B) : M B :=
  fun st => match m st with
            | (Ok a, st') => k a st'
            | (Raise e, st') => (Raise e, st')
            end.

(** [try: m except C: h], with the class [C] given by its membership test. *)
Definition try_except {A} (m : M A) (C : exn -> bool) (h : M A) : M A :=
  fun st => match m st with
            | (Ok a, st') => (Ok a, st')
            | (Raise e, st') => if C e then h st' else (Raise e, st')
            end.

Declare Scope db_scope.
Delimit Scope db_scope with db.
Notation "x <- m ;; k" := (bind m (fun x => k))
  (at level 61, m at next level, right associativity) : db_scope.
Notation "m ;; k" := (bind m (fun _ => k))
  (at level 61, right associativity) : db_scope.
Open Scope db_scope.

(** ** Predicates of the queries *)

(** A row as the WHERE clause sees it: the value of each column name. *)
Definition columns := string -> option value.

(** The clause [WHERE 1=1 AND k1='v1' AND k2='v2' ...]: its equalities. *)
Definition condition := list (string * value).

(** Keyword arguments, the absent ones being [None]. *)
Definition kwargs := list (string * option value).

Definition _generate_condition (kw : kwargs) : condition :=
  fold_left (fun res pair => match snd pair with
                             | None => res
                             | Some v => res ++ [(fst pair, v)]
                             end)
            kw [].

Definition holds (c : condition) (row : columns) : bool :=
  forallb (fun kv => match row (fst kv) with
                     | Some w => value_eqb w (snd kv)
                     | None => false
                     end) c.

Inductive table := T_member | T_project | T_action | T_vote.

Definition member_columns (r : member_row) : columns := fun c =>
  if String.eqb c "id" then Some (VInt (m_id r))
  else if String.eqb c "password" then Some (VStr (m_password r))
  else if String.eqb c "rank" then Some (VStr (rank_name (m_rank r)))
  else if String.eqb c "activity_date" then Some (VTime (m_activity_date r))
  else None.

Definition project_columns (r : project_row) : columns := fun c =>
  if String.eqb c "id" then Some (VInt (p_id r))
  else if String.eqb c "id_leader" then Some (VInt (p_id_leader r))
  else if String.eqb c "creation_date" then Some (VTime (p_creation_date r))
  else None.

Definition action_columns (r : action_row) : columns := fun c =>
  if String.eqb c "id" then Some (VInt (a_id r))
  else if String.eqb c "id_project" then Some (VInt (a_id_project r))
  else if String.eqb c "id_member" then Some (VInt (a_id_member r))
  else if String.eqb c "type" then Some (VStr (action_type_name (a_type r)))
  else if String.eqb c "creation_date" then Some (VTime (a_creation_date r))
  else if String.eqb c "upvotes" then Some (VInt (a_upvotes r))
  else if String.eqb c "downvotes" then Some (VInt (a_downvotes r))
  else None.

Definition vote_columns (r : vote_row) : columns := fun c =>
  if String.eqb c "id_member" then Some (VInt (v_id_member r))
  else if String.eqb c "id_action" then Some (VInt (v_id_action r))
  else if String.eqb c "direction" then Some (VStr (direction_name (v_direction r)))
  else if String.eqb c "creation_date" then Some (VTime (v_creation_date r))
  else None.

Definition rows_of (t : table) (st : db) : list columns :=
  match t with
  | T_member => map member_columns (member_tbl st)
  | T_project => map project_columns (project_tbl st)
  | T_action => map action_columns (action_tbl st)
  | T_vote => map vote_columns (vote_tbl st)
  end.

(** ** The store

    [cursor.execute] of a SELECT leaves the tables alone and hands its rows
    to the cursor. *)
Definition query {A} (select : db -> A) : M A := fun st => (Ok (select st), st).

(** Modelled from the spec: the schema file [db_definition.sql], which is not
    among the sources.  The store enforces the primary keys [member.id],
    [project.id], [action.id] and [vote(id_member, id_action)] and nothing
    else; an action starts with both counters at 0, and each counter is the
    number of votes of its direction that the action has received. *)
Definition insert_member (r : member_row) : M unit := fun st =>
  if existsb (fun x => m_id x =? m_id r) (member_tbl st)
  then (Raise IntegrityError, st)
  else (Ok tt, mkDb (member_tbl st ++ [r]) (project_tbl st) (action_tbl st) (vote_tbl st)).

(** Modelled from the spec: the key [project.id] of the missing schema file. *)
Definition insert_project (r : project_row) : M unit := fun st =>
  if existsb (fun x => p_id x =? p_id r) (project_tbl st)
  then (Raise IntegrityError, st)
  else (Ok tt, mkDb (member_tbl st) (project_tbl st ++ [r]) (action_tbl st) (vote_tbl st)).

(** Modelled from the spec: the key [action.id] of the missing schema file. *)
Definition insert_action (r : action_row) : M unit := fun st =>
  if existsb (fun x => a_id x =? a_id r) (action_tbl st)
  then (Raise IntegrityError, st)
  else (Ok tt, mkDb (member_tbl st) (project_tbl st) (action_tbl st ++ [r]) (vote_tbl st)).

(** Modelled from the spec: how the missing schema file keeps the counters of
    an action, the upvotes and the downvotes it has received. *)
Definition count_vote (v : vote_row) (a : action_row) : action_row :=
  if a_id a =? v_id_action v
  then match v_direction v with
       | up => mkAction (a_id a) (a_id_project a) (a_id_member a) (a_type a)
                        (a_creation_date a) (a_upvotes a + 1) (a_downvotes a)
       | down => mkAction (a_id a) (a_id_project a) (a_id_member a) (a_type a)
                          (a_creation_date a) (a_upvotes a) (a_downvotes a + 1)
       end
  else a.

Definition same_vote (m a : Z) (x : vote_row) : bool :=
  (v_id_member x =? m) && (v_id_action x =? a).

(** Modelled from the spec: the key [vote(id_member, id_action)] of the
    missing schema file, and the counting of the vote. *)
Definition insert_vote (r : vote_row) : M unit := fun st =>
  if existsb (same_vote (v_id_member r) (v_id_action r)) (vote_tbl st)
  then (Raise IntegrityError, st)
  else (Ok tt, mkDb (member_tbl st) (project_tbl st)
                    (map (count_vote r) (action_tbl st)) (vote_tbl st ++ [r])).

(** ** Result envelopes *)

Definition row := list value.

(** [json.dumps({'status': s})] and [json.dumps({'status': s, 'data': rows})]. *)
Record response := mkResponse { status : string; data : option (list row) }.

Definition STATUS_SUCCESS : string := "OK".
Definition STATUS_FAILURE : string := "ERROR".

Definition success : response := mkResponse STATUS_SUCCESS None.
Definition success_with (rows : list row) : response := mkResponse STATUS_SUCCESS (Some rows).
Definition failure : response := mkResponse STATUS_FAILURE None.

(** What a call of a public method yields: [Ok (Some r)] is a returned
    envelope, [Ok None] is Python's [None], [Raise e] an exception that
    leaves the method. *)
Definition outcome := result (option response).

(** ** SELECT helpers *)

Fixpoint row_eqb (a b : row) : bool :=
  match a, b with
  | [], [] => true
  | x :: a', y :: b' => value_eqb x y && row_eqb a' b'
  | _, _ => false
  end.

(** SELECT DISTINCT: the first occurrence of each row. *)
Definition distinct {K} (rows : list (K * row)) : list (K * row) :=
  fold_left (fun acc r => if existsb (fun x => row_eqb (snd x) (snd r)) acc
                          then acc else acc ++ [r])
            rows [].

Fixpoint insert_sorted {A} (le : A -> A -> bool) (x : A) (l : list A) : list A :=
  match l with
  | [] => [x]
  | y :: t => if le x y then x :: l else y :: insert_sorted le x t
  end.

(** ORDER BY.  SQL leaves the order of rows with equal keys open; here they
    stay in query order. *)
Definition order_by {A} (le : A -> A -> bool) (l : list A) : list A :=
  fold_right (insert_sorted le) [] l.

(** The right-hand side of a LEFT JOIN for one left row. *)
Definition left_join {A} (matches : list A) : list (option A) :=
  match matches with
  | [] => [None]
  | _ => map Some matches
  end.

(** *** The query of [actions] *)

Definition actions_join (st : db) : list (action_row * option vote_row * project_row) :=
  flat_map (fun a =>
    flat_map (fun ov =>
      map (fun p => (a, ov, p))
          (filter (fun p => a_id_project a =? p_id p) (project_tbl st)))
      (left_join (filter (fun v => a_id a =? v_id_action v) (vote_tbl st))))
    (action_tbl st).

Definition actions_join_columns (j : action_row * option vote_row * project_row) : columns :=
  let '(a, _, p) := j in
  fun c =>
    if String.eqb c "type" then Some (VStr (action_type_name (a_type a)))
    else if String.eqb c "project.id" then Some (VInt (p_id p))
    else if String.eqb c "project.id_leader" then Some (VInt (p_id_leader p))
    else None.

Definition actions_select (j : action_row * option vote_row * project_row) : Z * row :=
  let '(a, _, p) := j in
  (a_id a, [VInt (a_id a); VStr (action_type_name (a_type a)); VInt (a_id_project a);
            VInt (p_id_leader p); VInt (a_upvotes a); VInt (a_downvotes a)]).

Definition actions_query (c : condition) (st : db) : list row :=
  map snd
    (order_by (fun x y => fst x <=? fst y)
       (distinct (map actions_select
          (filter (fun j => holds c (actions_join_columns j)) (actions_join st))))).

(** *** The query of [projects] *)

Definition projects_query (c : condition) (st : db) : list row :=
  map snd
    (order_by (fun x y => fst x <=? fst y)
       (distinct (map (fun p => (p_id p, [VInt (p_id p); VInt (p_id_leader p)]))
          (filter (fun p => holds c (project_columns p)) (project_tbl st))))).

(** *** The query of [votes] *)

Definition votes_join (st : db) : list (vote_row * action_row * project_row) :=
  flat_map (fun v =>
    flat_map (fun oa =>
      match oa with
      | None => []
      | Some a => map (fun p => (v, a, p))
                      (filter (fun p => a_id_project a =? p_id p) (project_tbl st))
      end)
      (left_join (filter (fun a => v_id_action v =? a_id a) (action_tbl st))))
    (vote_tbl st).

Definition votes_join_columns (j : vote_row * action_row * project_row) : columns :=
  let '(v, _, p) := j in
  fun c =>
    if String.eqb c "vote.id_action" then Some (VInt (v_id_action v))
    else if String.eqb c "project.id" then Some (VInt (p_id p))
    else None.

(** The subquery [votes]: [(id_member, upvotes, downvotes)]. *)
Definition votes_subquery (c : condition) (st : db) : list (Z * Z * Z) :=
  map (fun j => let '(v, a, _) := j in (v_id_member v, a_upvotes a, a_downvotes a))
      (filter (fun j => holds c (votes_join_columns j)) (votes_join st)).

Definition votes_select (m : member_row) (s : option (Z * Z * Z)) : Z * row :=
  match s with
  | None => (m_id m, [VInt (m_id m); VInt 0; VInt 0])
  | Some (_, upvotes, downvotes) => (m_id m, [VInt (m_id m); VInt upvotes; VInt downvotes])
  end.

Definition votes_query (c : condition) (st : db) : list row :=
  map snd
    (order_by (fun x y => fst x <=? fst y)
       (distinct
          (flat_map (fun m =>
             map (votes_select m)
                 (left_join (filter (fun s => m_id m =? fst (fst s)) (votes_subquery c st))))
             (member_tbl st)))).

(** *** The query of [trolls] *)

Definition trolls_join (st : db) : list (member_row * action_row) :=
  flat_map (fun m => map (pair m) (filter (fun a => m_id m =? a_id_member a) (action_tbl st)))
           (member_tbl st).

(** GROUP BY member.id, upvotes, downvotes. *)
Definition same_group (x y : member_row * action_row) : bool :=
  (m_id (fst x) =? m_id (fst y)) &&
  (a_upvotes (snd x) =? a_upvotes (snd y)) &&
  (a_downvotes (snd x) =? a_downvotes (snd y)).

(** A group is its first row and the rows that joined it later. *)
Definition group := ((member_row * action_row) * list (member_row * action_row))%type.

Fixpoint add_to_groups (r : member_row * action_row) (gs : list group) : list group :=
  match gs with
  | [] => [(r, [])]
  | (h, t) :: gs' => if same_group r h then (h, t ++ [r]) :: gs'
                     else (h, t) :: add_to_groups r gs'
  end.

Definition group_by (rows : list (member_row * action_row)) : list group :=
  fold_left (fun gs r => add_to_groups r gs) rows [].

Definition sum (l : list Z) : Z := fold_right Z.add 0 l.

(** ORDER BY downvotes-upvotes DESC, member.id ASC, on the grouping columns. *)
Definition trolls_order (g1 g2 : group) : bool :=
  let deficit (g : group) := a_downvotes (snd (fst g)) - a_upvotes (snd (fst g)) in
  (deficit g2 <? deficit g1) ||
  ((deficit g1 =? deficit g2) && (m_id (fst (fst g1)) <=? m_id (fst (fst g2)))).

Definition trolls_select (timestamp : datetime) (g : group) : row :=
  let '(h, t) := g in
  [VInt (m_id (fst h));
   VInt (sum (map (fun r => a_upvotes (snd r)) (h :: t)));
   VInt (sum (map (fun r => a_downvotes (snd r)) (h :: t)));
   VBool (year timestamp - year (m_activity_date (fst h)) <=? 0)].

Definition trolls_query (timestamp : datetime) (st : db) : list row :=
  map (trolls_select timestamp)
      (order_by trolls_order
         (group_by (filter (fun j => 0 <? a_downvotes (snd j) - a_upvotes (snd j))
                           (trolls_join st)))).

(** ** The methods of [PostgresAPI] *)

Section PostgresAPI.

(** The store's [crypt(password, salt)]. *)
Variable crypt : string -> string -> string.
(** What [gen_salt('bf')] draws during this call. *)
Variable salt : string.
(** What [datetime.now()] reads during this call. *)
Variable now : datetime.

Definition _row_existence_check (t : table) (kw : kwargs) : M unit :=
  rows <- query (fun st => filter (holds (_generate_condition kw)) (rows_of t st)) ;;
  if (List.length rows =? 0)%nat then raise InvalidRowCount else ret tt.

Definition _verify_if_voted (member action : Z) : M unit :=
  rows <- query (fun st => filter (same_vote member action) (vote_tbl st)) ;;
  if negb (List.length rows =? 0)%nat then raise InvalidRowCount else ret tt.

Definition _create_member (member : Z) (password : string) (rank : rank)
  (timestamp : datetime) : M unit :=
  insert_member (mkMember member (crypt password salt) rank timestamp).

(** WHERE id={member} AND password=crypt('{password}', password) *)
Definition credentials_match (member : Z) (password : string) (r : member_row) : bool :=
  (m_id r =? member) && String.eqb (m_password r) (crypt password (m_password r)).

Definition _validate_member (member : Z) (password : string) : M unit :=
  rows <- query (fun st => filter (credentials_match member password) (member_tbl st)) ;;
  match rows with
  | [] => raise InvalidMember
  | fetchone :: _ =>
      if negb (year now - year (m_activity_date fetchone) =? 0)
      then raise InvalidMember
      else ret tt
  end.

Definition _verify_leader (member : Z) (password : string) : M unit :=
  _validate_member member password ;;
  try_except
    (_row_existence_check T_member
       [("id", Some (VInt member)); ("rank", Some (VStr "leader"))])
    is_InvalidRowCount
    (raise InvalidMember).

Definition _handle_member (member : Z) (password : string) (timestamp : datetime)
  : M unit :=
  try_except
    (_row_existence_check T_member [("id", Some (VInt member))] ;;
     _validate_member member password)
    is_DatabaseException
    (_create_member member password regular timestamp).

Definition _handle_project (project : Z) (authority : option Z) (timestamp : datetime)
  : M unit :=
  try_except
    (_row_existence_check T_project [("id", Some (VInt project))])
    is_InvalidRowCount
    (match authority with
     | None => raise InvalidMember
     | Some authority => insert_project (mkProject project authority timestamp)
     end).

Definition _define_action (timestamp member : Z) (password : string)
  (action project : Z) (statement : action_type) (authority : option Z)
  : M (option response) :=
  let timestamp := fromtimestamp timestamp in
  try_except
    (_handle_member member password timestamp ;;
     _handle_project project authority timestamp ;;
     insert_action (mkAction action project member statement timestamp 0 0) ;;
     ret (Some success))
    is_InternalError
    (ret (Some failure)).

Definition _vote (timestamp member : Z) (password : string) (action : Z)
  (vote : direction) : M (option response) :=
  let timestamp := fromtimestamp timestamp in
  try_except
    (_handle_member member password timestamp ;;
     _row_existence_check T_action [("id", Some (VInt action))] ;;
     insert_vote (mkVote member action vote timestamp) ;;
     ret (Some success))
    is_InternalError
    (ret (Some failure)).

(** *** The nine operations *)

(** The [try] body of [leader] has no [return]: when the insert goes through
    the method falls off its end. *)
Definition leader (timestamp : Z) (password : string) (member : Z)
  : M (option response) :=
  let timestamp := fromtimestamp timestamp in
  try_except
    (_create_member member password leader_rank timestamp ;;
     ret None)
    is_InternalError
    (ret (Some failure)).

Definition support (timestamp member : Z) (password : string) (action project : Z)
  (authority : option Z) : M (option response) :=
  _define_action timestamp member password action project support_type authority.

Definition protest (timestamp member : Z) (password : string) (action project : Z)
  (authority : option Z) : M (option response) :=
  _define_action timestamp member password action project protest_type authority.

Definition upvote (timestamp member : Z) (password : string) (action : Z)
  : M (option response) :=
  _vote timestamp member password action up.

Definition downvote (timestamp member : Z) (password : string) (action : Z)
  : M (option response) :=
  _vote timestamp member password action down.

Definition actions (member : Z) (password : string) (action_type : option string)
  (project authority : option Z) : M (option response) :=
  let condition := _generate_condition
    [("type", option_map VStr action_type);
     ("project.id", option_map VInt project);
     ("project.id_leader", option_map VInt authority)] in
  try_except
    (_verify_leader member password ;;
     fetchall <- query (actions_query condition) ;;
     ret (Some (success_with fetchall)))
    is_InternalError
    (ret (Some failure)).

Definition projects (member : Z) (password : string) (authority : option Z)
  : M (option response) :=
  let condition := _generate_condition [("id_leader", option_map VInt authority)] in
  try_except
    (_verify_leader member password ;;
     fetchall <- query (projects_query condition) ;;
     ret (Some (success_with fetchall)))
    is_InternalError
    (ret (Some failure)).

Definition votes (member : Z) (password : string) (action project : option Z)
  : M (option response) :=
  let condition := _generate_condition
    [("vote.id_action", option_map VInt action);
     ("project.id", option_map VInt project)] in
  try_except
    (_verify_leader member password ;;
     fetchall <- query (votes_query condition) ;;
     ret (Some (success_with fetchall)))
    is_InternalError
    (ret (Some failure)).

Definition trolls (timestamp : Z) : M (option response) :=
  let timestamp := fromtimestamp timestamp in
  try_except
    (fetchall <- query (trolls_query timestamp) ;;
     ret (Some (success_with fetchall)))
    is_InternalError
    (ret (Some failure)).

(** *** Requests, as the batch runner dispatches them by name *)

Inductive request :=
| Leader (timestamp : Z) (password : string) (member : Z)
| Support (timestamp member : Z) (password : string) (action project : Z)
    (authority : option Z)
| Protest (timestamp member : Z) (password : string) (action project : Z)
    (authority : option Z)
| Upvote (timestamp member : Z) (password : string) (action : Z)
| Downvote (timestamp member : Z) (password : string) (action : Z)
| Actions (member : Z) (password : string) (action_type : option string)
    (project authority : option Z)
| Projects (member : Z) (password : string) (authority : option Z)
| Votes (member : Z) (password : string) (action project : option Z)
| Trolls (timestamp : Z).

Definition call (r : request) : M (option response) :=
  match r with
  | Leader t p m => leader t p m
  | Support t m p a pr au => support t m p a pr au
  | Protest t m p a pr au => protest t m p a pr au
  | Upvote t m p a => upvote t m p a
  | Downvote t m p a => downvote t m p a
  | Actions m p ty pr au => actions m p ty pr au
  | Projects m p au => projects m p au
  | Votes m p a pr => votes m p a pr
  | Trolls t => trolls t
  end.

End PostgresAPI.

(** * Properties *)

(** ** What the statements of the theorems speak about *)

Definition member_exists (member : Z) (st : db) : bool :=
  existsb (fun r => m_id r =? member) (member_tbl st).

Definition leader_exists (member : Z) (st : db) : bool :=
  existsb (fun r => (m_id r =? member) && String.eqb (rank_name (m_rank r)) "leader")
          (member_tbl st).

Definition project_exists (project : Z) (st : db) : bool :=
  existsb (fun p => p_id p =? project) (project_tbl st).

Definition action_exists (action : Z) (st : db) : bool :=
  existsb (fun a => a_id a =? action) (action_tbl st).

Definition vote_exists (member action : Z) (st : db) : bool :=
  existsb (same_vote member action) (vote_tbl st).

Definition add_member (r : member_row) (st : db) : db :=
  mkDb (member_tbl st ++ [r]) (project_tbl st) (action_tbl st) (vote_tbl st).

Definition add_project (r : project_row) (st : db) : db :=
  mkDb (member_tbl st) (project_tbl st ++ [r]) (action_tbl st) (vote_tbl st).

Definition add_action (r : action_row) (st : db) : db :=
  mkDb (member_tbl st) (project_tbl st) (action_tbl st ++ [r]) (vote_tbl st).

Definition add_vote (r : vote_row) (st : db) : db :=
  mkDb (member_tbl st) (project_tbl st) (map (count_vote r) (action_tbl st))
       (vote_tbl st ++ [r]).

(** The operation did not succeed: it returned the failure envelope, or an
    exception left it. *)
Definition reports_failure (o : outcome) : Prop :=
  match o with
  | Ok (Some r) => status r = STATUS_FAILURE
  | Ok None => False
  | Raise _ => True
  end.

(** The operation returned an envelope whose status is one of the two. *)
Definition returns_envelope (o : outcome) : Prop :=
  exists r, o = Ok (Some r) /\ (status r = STATUS_SUCCESS \/ status r = STATUS_FAILURE).

Definition returns_success (o : outcome) : Prop :=
  exists r, o = Ok (Some r) /\ status r = STATUS_SUCCESS.

(** [_validate_member] would let this pair through. *)
Definition authenticates (crypt : string -> string -> string) (now : datetime)
  (member : Z) (password : string) (st : db) : bool :=
  match filter (credentials_match crypt member password) (member_tbl st) with
  | [] => false
  | r :: _ => year now - year (m_activity_date r) =? 0
  end.

(** The requests that provision their member, with the member id, the
    password and the timestamp they carry. *)
Definition provisioning (r : request) : option (Z * string * Z) :=
  match r with
  | Support t m p _ _ _ | Protest t m p _ _ _ => Some (m, p, t)
  | Upvote t m p _ | Downvote t m p _ => Some (m, p, t)
  | _ => None
  end.

(** The listing requests, with the credentials they carry. *)
Definition listing (r : request) : option (Z * string) :=
  match r with
  | Actions m p _ _ _ => Some (m, p)
  | Projects m p _ => Some (m, p)
  | Votes m p _ _ => Some (m, p)
  | _ => None
  end.

(** A support or protest request, by its type tag. *)
Definition action_request (statement : action_type) (timestamp member : Z)
  (password : string) (action project : Z) (authority : option Z) : request :=
  match statement with
  | support_type => Support timestamp member password action project authority
  | protest_type => Protest timestamp member password action project authority
  end.

(** The key of the vote table. *)
Definition vote_key (v : vote_row) : Z * Z := (v_id_member v, v_id_action v).

(** ** The troll rule in the words of the specification

    A member with at least one authored action is a troll when the downvotes
    summed over all of that member's actions exceed the upvotes summed over
    them; trolls are listed by downvotes minus upvotes, largest first, then by
    member id. *)

Definition authored (member : Z) (st : db) : list action_row :=
  filter (fun a => a_id_member a =? member) (action_tbl st).

Definition total_upvotes (member : Z) (st : db) : Z :=
  sum (map a_upvotes (authored member st)).

Definition total_downvotes (member : Z) (st : db) : Z :=
  sum (map a_downvotes (authored member st)).

Definition spec_is_troll (member : Z) (st : db) : bool :=
  negb (List.length (authored member st) =? 0)%nat &&
  (total_upvotes member st <? total_downvotes member st).

(** Member id, total upvotes, total downvotes. *)
Definition spec_trolls (st : db) : list (Z * Z * Z) :=
  order_by (fun x y =>
              let deficit (t : Z * Z * Z) := snd t - snd (fst t) in
              (deficit y <? deficit x) ||
              ((deficit x =? deficit y) && (fst (fst x) <=? fst (fst y))))
    (map (fun m => (m_id m, total_upvotes (m_id m) st, total_downvotes (m_id m) st))
         (filter (fun m => spec_is_troll (m_id m) st) (member_tbl st))).

(** The first three columns of the rows that [trolls] returns. *)
Definition troll_columns (o : outcome) : list (list value) :=
  match o with
  | Ok (Some (mkResponse _ (Some rows))) => map (firstn 3) rows
  | _ => []
  end.

Definition spec_troll_columns (st : db) : list (list value) :=
  map (fun t => [VInt (fst (fst t)); VInt (snd (fst t)); VInt (snd t)]) (spec_trolls st).

(** ** Stores and requests of the examples *)

(** A stand-in for the store's [crypt]: a hash is the first four characters
    of the salt it was made with, then the password; checking a password
    against a hash reuses the salt the hash starts with. *)
Definition demo_crypt (password salt : string) : string :=
  String.append (substring 0 4 salt) password.

Definition demo_salt : string := "bf07salt".

(** 2019-05-10 00:00:00 and 2019-06-08 13:20:00. *)
Definition t2019 : Z := 1557446400.
Definition demo_now : datetime := fromtimestamp 1560000000.

Definition demo_call (r : request) (st : db) : outcome * db :=
  call demo_crypt demo_salt demo_now r st.

(** One leader, created by a [leader] request. *)
Definition st_leader : db :=
  snd (demo_call (Leader t2019 "pw" 1) empty_db).

(** Then member 2 supports project 100 of leader 1 with action 10. *)
Definition st_action : db :=
  snd (demo_call (Support t2019 2 "x" 10 100 (Some 1)) st_leader).

(** Then member 3 upvotes action 10. *)
Definition st_voted : db :=
  snd (demo_call (Upvote t2019 3 "y" 10) st_action).

(** The batch runner: the requests are called one after the other. *)
Definition demo_batch (requests : list request) (st : db) : db :=
  fold_left (fun s r => snd (demo_call r s)) requests st.

(** What the troll rule reads of an action: id, author, upvotes, downvotes. *)
Definition tally (a : action_row) : Z * Z * Z * Z :=
  (a_id a, a_id_member a, a_upvotes a, a_downvotes a).

(** Member 1 authors actions 10 and 11 on project 100 of leader 9; action 10
    gets three downvotes, action 11 five upvotes. *)
Definition st_mixed : db :=
  demo_batch
    [Leader t2019 "boss" 9;
     Support t2019 1 "pw" 10 100 (Some 9);
     Protest t2019 1 "pw" 11 100 None;
     Downvote t2019 2 "a" 10; Downvote t2019 3 "b" 10; Downvote t2019 4 "c" 10;
     Upvote t2019 2 "a" 11; Upvote t2019 3 "b" 11; Upvote t2019 4 "c" 11;
     Upvote t2019 5 "d" 11; Upvote t2019 6 "e" 11]
    empty_db.

(** Member 1 authors actions 10 and 11; action 10 gets three downvotes,
    action 11 two. *)
Definition st_twice : db :=
  demo_batch
    [Leader t2019 "boss" 9;
     Support t2019 1 "pw" 10 100 (Some 9);
     Protest t2019 1 "pw" 11 100 None;
     Downvote t2019 2 "a" 10; Downvote t2019 3 "b" 10; Downvote t2019 4 "c" 10;
     Downvote t2019 2 "a" 11; Downvote t2019 3 "b" 11]
    empty_db.

(** Members A, B and C of the specification's example, here 1, 2 and 3, one
    action each: A's gets 1 upvote and 5 downvotes, B's 3 downvotes, C's
    2 upvotes and 2 downvotes. *)
Definition st_abc : db :=
  demo_batch
    [Leader t2019 "boss" 9;
     Support t2019 3 "c" 12 100 (Some 9);
     Support t2019 2 "b" 11 100 None;
     Protest t2019 1 "a" 10 100 None;
     Upvote t2019 4 "p" 10; Downvote t2019 5 "q" 10; Downvote t2019 6 "r" 10;
     Downvote t2019 7 "s" 10; Downvote t2019 8 "t" 10; Downvote t2019 9 "boss" 10;
     Downvote t2019 4 "p" 11; Downvote t2019 5 "q" 11; Downvote t2019 6 "r" 11;
     Upvote t2019 4 "p" 12; Upvote t2019 5 "q" 12;
     Downvote t2019 6 "r" 12; Downvote t2019 7 "s" 12]
    empty_db.

(** ** The batch runner of [json_runner]

    [reduce(lambda x, y: x + y, input_list)] has no initial value: on an
    empty list it raises [TypeError], here [None]. *)
Definition flatten {A} (input_list : list (list A)) : option (list A) :=
  match input_list with
  | [] => None
  | x :: rest => Some (fold_left (fun x y => x ++ y) rest x)
  end.

(** A JSON object is the list of its items, in their order. *)
Definition name_kwargs_map {K V} (jsons : list (list (K * V))) : option (list (K * V)) :=
  flatten (map (fun single_json => single_json) jsons).

(** One call of the comprehension, [getattr(api, name)] applied to its
    keyword arguments, with the salt the store draws and the time the clock
    shows during it. *)
Definition run_call (crypt : string -> string -> string)
  (c : string * datetime * request) : M (option response) :=
  let '(salt, now, r) := c in call crypt salt now r.

(** The comprehension: the calls in order; an exception that leaves a call
    leaves the comprehension, and no [output] is built. *)
Fixpoint run_batch (crypt : string -> string -> string)
  (calls : list (string * datetime * request)) : M (list (option response)) :=
  match calls with
  | [] => ret []
  | c :: rest =>
      o <- run_call crypt c ;;
      os <- run_batch crypt rest ;;
      ret (o :: os)
  end.

(** ** Further notions for the statements *)

(** The groups are the classes of the rows under [same_group]: each group
    is the rows of its class in their order, every row is in a group, and
    no two groups have the same class. *)
Definition grouped (gs : list group) (rows : list (member_row * action_row)) : Prop :=
  (forall g, In g gs ->
     fst g :: snd g = filter (fun r => same_group r (fst g)) rows) /\
  (forall x, In x rows -> exists g, In g gs /\ same_group x (fst g) = true) /\
  ForallOrdPairs (fun g1 g2 => same_group (fst g1) (fst g2) = false) gs.


(** The store after further calls, each made on the store the one before
    left, whether it returned or raised. *)
Definition after_calls (crypt : string -> string -> string)
  (calls : list (string * datetime * request)) (st : db) : db :=
  fold_left (fun s c => snd (run_call crypt c s)) calls st.

(** The second store has every project row of the first, and for every
    action row of the first an action row with the same id, type and
    project and with counters that are not smaller. *)
Definition keeps_listed (st st' : db) : Prop :=
  (forall p, In p (project_tbl st) -> In p (project_tbl st')) /\
  (forall a, In a (action_tbl st) ->
     exists a', In a' (action_tbl st') /\
                a_id a' = a_id a /\ a_type a' = a_type a /\
                a_id_project a' = a_id_project a /\
                a_upvotes a <= a_upvotes a' /\ a_downvotes a <= a_downvotes a').


(** A string that can be spliced between quotes into the SQL text as it
    is: it holds no quote character. *)
Fixpoint quote_free (s : string) : bool :=
  match s with
  | EmptyString => true
  | String c rest => negb (Ascii.eqb c "'"%char) && quote_free rest
  end.


(** Every action names a member and a project that have rows, every vote a
    member and an action that have rows. *)
Definition referential (st : db) : Prop :=
  (forall a, In a (action_tbl st) ->
     member_exists (a_id_member a) st = true /\
     project_exists (a_id_project a) st = true) /\
  (forall v, In v (vote_tbl st) ->
     member_exists (v_id_member v) st = true /\
     action_exists (v_id_action v) st = true).

Definition is_leader_request (r : request) : bool :=
  match r with
  | Leader _ _ _ => true
  | _ => false
  end.

(** The integer in the first column of a row. *)
Definition row_key (r : row) : Z :=
  match r with
  | VInt z :: _ => z
  | _ => 0
  end.

(** The filter a keyword imposes on a row: nothing when it is absent. *)
Definition kwarg_holds (row : columns) (kv : string * option value) : Prop :=
  match snd kv with
  | None => True
  | Some v => exists w, row (fst kv) = Some w /\ value_eqb w v = true
  end.

(** An upvote or downvote request, by its direction. *)
Definition vote_request (vote : direction) (timestamp member : Z)
  (password : string) (action : Z) : request :=
  match vote with
  | up => Upvote timestamp member password action
  | down => Downvote timestamp member password action
  end.

(** ** Lists and existence checks *)

Lemma filter_none_iff_existsb {A} (f : A -> bool) (l : list A) :
  (List.length (filter f l) =? 0)%nat = negb (existsb f l).
Proof.
  induction l as [|x l IH]; simpl; [reflexivity|].
  destruct (f x); simpl; [reflexivity | exact IH].
Qed.

Lemma existsb_map {A B} (g : A -> B) (f : B -> bool) (l : list A) :
  existsb f (map g l) = existsb (fun x => f (g x)) l.
Proof.
  induction l as [|x l IH]; simpl; [reflexivity | now rewrite IH].
Qed.

Lemma existsb_same {A} (f g : A -> bool) (l : list A) :
  (forall x, f x = g x) -> existsb f l = existsb g l.
Proof.
  intros E; induction l as [|x l IH]; simpl; [reflexivity | now rewrite E, IH].
Qed.

Lemma existsb_app_one {A} (f : A -> bool) (l : list A) (x : A) :
  existsb f (l ++ [x]) = existsb f l || f x.
Proof.
  rewrite existsb_app; simpl; now rewrite orb_false_r.
Qed.

Lemma app_one_neq {A} (l : list A) (x : A) : l ++ [x] <> l.
Proof.
  intros E. apply (f_equal (@List.length A)) in E.
  rewrite length_app in E; simpl in E; lia.
Qed.

Section Checks.

Variable crypt : string -> string -> string.
Variable salt : string.
Variable now : datetime.

Lemma _row_existence_check_eq t kw st :
  _row_existence_check t kw st =
  if existsb (holds (_generate_condition kw)) (rows_of t st)
  then (Ok tt, st) else (Raise InvalidRowCount, st).
Proof.
  unfold _row_existence_check, bind, query.
  rewrite filter_none_iff_existsb.
  destruct (existsb _ _); reflexivity.
Qed.

Lemma check_member_id member st :
  _row_existence_check T_member [("id", Some (VInt member))] st =
  if member_exists member st then (Ok tt, st) else (Raise InvalidRowCount, st).
Proof.
  rewrite _row_existence_check_eq. unfold member_exists. simpl rows_of.
  rewrite existsb_map.
  rewrite (existsb_same _ (fun r => m_id r =? member)); [reflexivity|].
  intros r; cbn. now rewrite andb_true_r.
Qed.

Lemma check_member_leader member st :
  _row_existence_check T_member
    [("id", Some (VInt member)); ("rank", Some (VStr "leader"))] st =
  if leader_exists member st then (Ok tt, st) else (Raise InvalidRowCount, st).
Proof.
  rewrite _row_existence_check_eq. unfold leader_exists. simpl rows_of.
  rewrite existsb_map.
  rewrite (existsb_same _ (fun r => (m_id r =? member)
                                      && String.eqb (rank_name (m_rank r)) "leader"));
    [reflexivity|].
  intros r; cbn. now rewrite andb_true_r.
Qed.

Lemma check_project_id project st :
  _row_existence_check T_project [("id", Some (VInt project))] st =
  if project_exists project st then (Ok tt, st) else (Raise InvalidRowCount, st).
Proof.
  rewrite _row_existence_check_eq. unfold project_exists. simpl rows_of.
  rewrite existsb_map.
  rewrite (existsb_same _ (fun p => p_id p =? project)); [reflexivity|].
  intros r; cbn. now rewrite andb_true_r.
Qed.

Lemma check_action_id action st :
  _row_existence_check T_action [("id", Some (VInt action))] st =
  if action_exists action st then (Ok tt, st) else (Raise InvalidRowCount, st).
Proof.
  rewrite _row_existence_check_eq. unfold action_exists. simpl rows_of.
  rewrite existsb_map.
  rewrite (existsb_same _ (fun a => a_id a =? action)); [reflexivity|].
  intros r; cbn. now rewrite andb_true_r.
Qed.

(** [_validate_member] reads and never writes; it ends in one of two ways. *)
Lemma _validate_member_cases member password st :
  _validate_member crypt now member password st = (Ok tt, st) \/
  _validate_member crypt now member password st = (Raise InvalidMember, st).
Proof.
  unfold _validate_member, bind, query.
  destruct (filter _ _) as [|r rest]; [now right|].
  destruct (negb _); [now right | now left].
Qed.

End Checks.

Lemma filter_nil_iff {A} (f : A -> bool) (l : list A) :
  filter f l = [] <-> forall x, In x l -> f x = false.
Proof.
  induction l as [|a l IH]; simpl.
  - split; [intros _ x [] | reflexivity].
  - destruct (f a) eqn:E.
    + split; [discriminate|]. intros H. rewrite (H a) in E; [discriminate | now left].
    + rewrite IH. split.
      * intros H x [<-|I]; auto.
      * intros H x I. apply H. now right.
Qed.

(** The first row a filter keeps, and the rows before it. *)
Lemma filter_head_split {A} (f : A -> bool) (l : list A) (r : A) :
  (exists rest, filter f l = r :: rest) <->
  exists before after,
    l = before ++ r :: after /\ (forall x, In x before -> f x = false) /\ f r = true.
Proof.
  induction l as [|a l IH]; simpl.
  - split; [intros (rest & H); discriminate|].
    intros (before & after & E & _). destruct before; discriminate.
  - destruct (f a) eqn:E.
    + split.
      * intros (rest & H). injection H as -> _. exists [], l.
        split; [reflexivity|]. split; [intros x [] | exact E].
      * intros ([|b before] & after & El & N & Fr).
        -- injection El as -> _. now exists (filter f l).
        -- injection El as <- _. rewrite (N a) in E; [discriminate | now left].
    + rewrite IH. split.
      * intros (before & after & El & N & Fr). exists (a :: before), after.
        split; [now rewrite El|]. split; [|exact Fr].
        intros x [<-|I]; auto.
      * intros ([|b before] & after & El & N & Fr).
        -- injection El as -> _. congruence.
        -- injection El as _ ->. exists before, after.
           split; [reflexivity|]. split; [|exact Fr]. intros x I. apply N. now right.
Qed.

(** ** Member authentication *)

Section Authentication.

Variable crypt : string -> string -> string.
Variable now : datetime.

(** C5, as the code has it.  For a password without quote characters,
    [_validate_member] raises [InvalidMember] exactly when no member row has
    the id and a password hash that the password checks against, or when the
    row it fetches (the first such row of the table) has an activity year
    other than the year the system clock shows during the check; the
    timestamp of the request plays no part.  With such a row of equal year
    it returns nothing.  Either way the store is the one it started with.
    Under the key on [member.id] the fetched row is the one row that has the
    id and checks against the password. *)
Theorem _validate_member_spec (member : Z) (password : string) (st : db) :
  quote_free password = true ->
  let matches (r : member_row) :=
    m_id r = member /\ m_password r = crypt password (m_password r) in
  let fetched (r : member_row) :=
    exists before after,
      member_tbl st = before ++ r :: after /\
      (forall x, In x before -> ~ matches x) /\ matches r in
  (_validate_member crypt now member password st = (Raise InvalidMember, st) <->
   (forall r, In r (member_tbl st) -> ~ matches r) \/
   (exists r, fetched r /\ year (m_activity_date r) <> year now)) /\
  (_validate_member crypt now member password st = (Ok tt, st) <->
   exists r, fetched r /\ year (m_activity_date r) = year now) /\
  (NoDup (map m_id (member_tbl st)) ->
   forall r, fetched r <-> In r (member_tbl st) /\ matches r).
Proof.
  intros _. cbv zeta.
  set (matches := fun r : member_row =>
         m_id r = member /\ m_password r = crypt password (m_password r)).
  set (fetched := fun r : member_row =>
         exists before after,
           member_tbl st = before ++ r :: after /\
           (forall x, In x before -> ~ matches x) /\ matches r).
  assert (CM : forall r, credentials_match crypt member password r = true <-> matches r).
  { intros r. unfold credentials_match, matches.
    now rewrite andb_true_iff, Z.eqb_eq, String.eqb_eq. }
  assert (CF : forall r, credentials_match crypt member password r = false <-> ~ matches r).
  { intros r. rewrite <- CM. destruct (credentials_match crypt member password r);
      split; intros H; try reflexivity; try discriminate; [now elim H].  }
  assert (FN : filter (credentials_match crypt member password) (member_tbl st) = [] <->
               forall r, In r (member_tbl st) -> ~ matches r).
  { rewrite filter_nil_iff. split; intros H r I; apply CF; auto. }
  assert (FH : forall r,
    (exists rest, filter (credentials_match crypt member password) (member_tbl st)
                  = r :: rest) <-> fetched r).
  { intros r. rewrite filter_head_split. unfold fetched. split.
    - intros (before & after & E & N & M). exists before, after.
      split; [exact E|]. split; [intros x I; apply CF; auto | now apply CM].
    - intros (before & after & E & N & M). exists before, after.
      split; [exact E|]. split; [intros x I; apply CF; auto | now apply CM]. }
  split; [|split].
  - unfold _validate_member, bind, query.
    destruct (filter _ _) as [|r0 rest] eqn:F.
    + split; [intros _; left; now apply FN | reflexivity].
    + assert (F0 : fetched r0) by (apply FH; now exists rest).
      destruct (Z.eqb_spec (year now - year (m_activity_date r0)) 0) as [E|E]; simpl.
      * split; [discriminate|]. intros [H|(r & Fr & Y)].
        -- apply FN in H. discriminate.
        -- apply FH in Fr as (rest' & Fr). injection Fr as -> _. lia.
      * split; [|reflexivity]. intros _. right. exists r0. split; [exact F0 | lia].
  - unfold _validate_member, bind, query.
    destruct (filter _ _) as [|r0 rest] eqn:F.
    + split; [discriminate|]. intros (r & Fr & _).
      apply FH in Fr as (rest' & Fr). discriminate.
    + assert (F0 : fetched r0) by (apply FH; now exists rest).
      destruct (Z.eqb_spec (year now - year (m_activity_date r0)) 0) as [E|E]; simpl.
      * split; [|reflexivity]. intros _. exists r0. split; [exact F0 | lia].
      * split; [discriminate|]. intros (r & Fr & Y).
        apply FH in Fr as (rest' & Fr). injection Fr as -> _. lia.
  - intros N r. split.
    + intros (before & after & E & _ & M). split; [|exact M].
      rewrite E. apply in_or_app. right. now left.
    + intros [I M]. destruct (in_split _ _ I) as (before & after & E).
      exists before, after. split; [exact E|]. split; [|exact M].
      intros x Ix [Hx _]. rewrite E, map_app in N. simpl in N.
      apply NoDup_remove_2 in N. apply N. apply in_or_app. left.
      destruct M as [Hr _]. rewrite Hr, <- Hx. now apply in_map.
Qed.

(** Under the key on [member.id] at most one row can match. *)
Lemma matching_at_most_one (member : Z) (password : string) (l : list member_row) :
  NoDup (map m_id l) ->
  (List.length (filter (credentials_match crypt member password) l) <= 1)%nat.
Proof.
  induction l as [|r l IH]; simpl; intros N; [lia|].
  inversion N as [|x xs Hnot N' E]; subst.
  unfold credentials_match at 1.
  destruct (Z.eqb_spec (m_id r) member) as [E|E]; simpl.
  - assert (F : filter (credentials_match crypt member password) l = []).
    { clear IH N N'. induction l as [|y l IH]; simpl; [reflexivity|].
      unfold credentials_match at 1.
      destruct (Z.eqb_spec (m_id y) member) as [E'|E']; simpl.
      - exfalso. apply Hnot. simpl. left. congruence.
      - apply IH. intros I. apply Hnot. now right. }
    rewrite F. destruct (String.eqb _ _); simpl; lia.
  - now apply IH.
Qed.

End Authentication.

Lemma vote_exists_false_notin member action l :
  existsb (same_vote member action) l = false -> ~ In (member, action) (map vote_key l).
Proof.
  induction l as [|v l IH]; simpl; intros E; [tauto|].
  apply orb_false_iff in E as [E1 E2].
  intros [H|H]; [|now apply IH].
  unfold vote_key in H. injection H as H1 H2.
  unfold same_vote in E1. rewrite H1, H2, !Z.eqb_refl in E1. discriminate.
Qed.

Lemma NoDup_app_one {A} (l : list A) (x : A) : NoDup l -> ~ In x l -> NoDup (l ++ [x]).
Proof.
  intros N I. induction N as [|y l Hy N IH]; simpl.
  - constructor; [tauto | constructor].
  - constructor.
    + rewrite in_app_iff; simpl. intros [H|[H|[]]]; [tauto|].
      apply I. now left.
    + apply IH. intros H. apply I. now right.
Qed.

(** ** The methods, step by step *)

Section Steps.

Variable crypt : string -> string -> string.
Variable salt : string.
Variable now : datetime.

Lemma _validate_member_eq member password st :
  _validate_member crypt now member password st =
  if authenticates crypt now member password st
  then (Ok tt, st) else (Raise InvalidMember, st).
Proof.
  unfold _validate_member, authenticates, bind, query.
  destruct (filter _ _) as [|r rest]; [reflexivity|].
  destruct (_ =? 0); reflexivity.
Qed.

Lemma _verify_leader_eq member password st :
  _verify_leader crypt now member password st =
  if authenticates crypt now member password st && leader_exists member st
  then (Ok tt, st) else (Raise InvalidMember, st).
Proof.
  unfold _verify_leader, bind, try_except.
  rewrite _validate_member_eq.
  destruct (authenticates _ _ _ _ _); simpl; [|reflexivity].
  rewrite check_member_leader.
  destruct (leader_exists member st); reflexivity.
Qed.

Lemma _create_member_eq member password rank timestamp st :
  _create_member crypt salt member password rank timestamp st =
  if member_exists member st then (Raise IntegrityError, st)
  else (Ok tt, add_member (mkMember member (crypt password salt) rank timestamp) st).
Proof. reflexivity. Qed.

Lemma _handle_member_eq member password timestamp st :
  _handle_member crypt salt now member password timestamp st =
  if member_exists member st
  then if authenticates crypt now member password st
       then (Ok tt, st) else (Raise IntegrityError, st)
  else (Ok tt, add_member (mkMember member (crypt password salt) regular timestamp) st).
Proof.
  unfold _handle_member, try_except, bind.
  rewrite check_member_id.
  destruct (member_exists member st) eqn:E.
  - rewrite _validate_member_eq.
    destruct (authenticates _ _ _ _ _); [reflexivity|].
    simpl. rewrite _create_member_eq. now rewrite E.
  - simpl. rewrite _create_member_eq. now rewrite E.
Qed.

(** For a member that has a row, the timestamp of the request plays no part
    in the member step: the year compared is the clock's. *)
Lemma _handle_member_known_ignores_timestamp member password t t' st :
  member_exists member st = true ->
  _handle_member crypt salt now member password t st =
  _handle_member crypt salt now member password t' st.
Proof.
  intros E. now rewrite !_handle_member_eq, E.
Qed.

Lemma _handle_project_eq project authority timestamp st :
  _handle_project project authority timestamp st =
  match project_exists project st, authority with
  | true, _ => (Ok tt, st)
  | false, None => (Raise InvalidMember, st)
  | false, Some a => (Ok tt, add_project (mkProject project a timestamp) st)
  end.
Proof.
  unfold _handle_project, try_except. rewrite check_project_id.
  destruct (project_exists project st) eqn:P; [reflexivity|].
  simpl. destruct authority as [a|]; [|reflexivity].
  unfold insert_project; simpl. unfold project_exists in P. now rewrite P.
Qed.

Lemma insert_action_eq r st :
  insert_action r st =
  if action_exists (a_id r) st then (Raise IntegrityError, st)
  else (Ok tt, add_action r st).
Proof. reflexivity. Qed.

Lemma insert_vote_eq r st :
  insert_vote r st =
  if vote_exists (v_id_member r) (v_id_action r) st then (Raise IntegrityError, st)
  else (Ok tt, add_vote r st).
Proof. reflexivity. Qed.

Lemma leader_eq timestamp password member st :
  leader crypt salt timestamp password member st =
  if member_exists member st then (Raise IntegrityError, st)
  else (Ok None,
        add_member (mkMember member (crypt password salt) leader_rank
                             (fromtimestamp timestamp)) st).
Proof.
  unfold leader, try_except, bind. rewrite _create_member_eq.
  destruct (member_exists member st); reflexivity.
Qed.

(** After the member step, a support or protest resolves the project and
    inserts the action. *)
Lemma _define_action_eq timestamp member password action project statement authority st :
  _define_action crypt salt now timestamp member password action project statement
                 authority st =
  let t := fromtimestamp timestamp in
  let new := mkAction action project member statement t 0 0 in
  match _handle_member crypt salt now member password t st with
  | (Raise _, _) => (Raise IntegrityError, st)
  | (Ok _, st1) =>
      match project_exists project st1, authority with
      | false, None => (Ok (Some failure), st1)
      | true, _ =>
          if action_exists action st1 then (Raise IntegrityError, st1)
          else (Ok (Some success), add_action new st1)
      | false, Some a =>
          let st2 := add_project (mkProject project a t) st1 in
          if action_exists action st1 then (Raise IntegrityError, st2)
          else (Ok (Some success), add_action new st2)
      end
  end.
Proof.
  unfold _define_action, try_except, bind; cbv zeta.
  rewrite _handle_member_eq.
  set (t := fromtimestamp timestamp).
  set (st1 := add_member _ st).
  assert (K : forall s,
    match (let (r, st') := _handle_project project authority t s in
           match r with
           | Ok _ =>
               let (r0, st'0) := insert_action (mkAction action project member statement t 0 0) st' in
               match r0 with
               | Ok _ => ret (Some success) st'0
               | Raise e => (Raise e, st'0)
               end
           | Raise e => (Raise e, st')
           end) with
    | (Ok a, st') => (Ok a, st')
    | (Raise e, st') => if is_InternalError e then ret (Some failure) st' else (Raise e, st')
    end =
    match project_exists project s, authority with
    | false, None => (Ok (Some failure), s)
    | true, _ =>
        if action_exists action s then (Raise IntegrityError, s)
        else (Ok (Some success), add_action (mkAction action project member statement t 0 0) s)
    | false, Some a =>
        if action_exists action s
        then (Raise IntegrityError, add_project (mkProject project a t) s)
        else (Ok (Some success),
              add_action (mkAction action project member statement t 0 0)
                         (add_project (mkProject project a t) s))
    end).
  { intros s. rewrite _handle_project_eq.
    destruct (project_exists project s); [|destruct authority as [a|]].
    - rewrite insert_action_eq; simpl. destruct (action_exists action s); reflexivity.
    - rewrite insert_action_eq; simpl.
      change (action_exists action (add_project (mkProject project a t) s))
        with (action_exists action s).
      destruct (action_exists action s); reflexivity.
    - reflexivity. }
  destruct (member_exists member st).
  - destruct (authenticates _ _ _ _ _); [apply K | reflexivity].
  - apply K.
Qed.

Lemma _vote_eq timestamp member password action vote st :
  _vote crypt salt now timestamp member password action vote st =
  let t := fromtimestamp timestamp in
  match _handle_member crypt salt now member password t st with
  | (Raise _, _) => (Raise IntegrityError, st)
  | (Ok _, st1) =>
      if action_exists action st1
      then if vote_exists member action st1 then (Raise IntegrityError, st1)
           else (Ok (Some success), add_vote (mkVote member action vote t) st1)
      else (Ok (Some failure), st1)
  end.
Proof.
  unfold _vote, try_except, bind; cbv zeta.
  rewrite _handle_member_eq.
  set (t := fromtimestamp timestamp).
  assert (K : forall s,
    match (let (r, st') := _row_existence_check T_action [("id", Some (VInt action))] s in
           match r with
           | Ok _ =>
               let (r0, st'0) := insert_vote (mkVote member action vote t) st' in
               match r0 with
               | Ok _ => ret (Some success) st'0
               | Raise e => (Raise e, st'0)
               end
           | Raise e => (Raise e, st')
           end) with
    | (Ok a, st') => (Ok a, st')
    | (Raise e, st') => if is_InternalError e then ret (Some failure) st' else (Raise e, st')
    end =
    if action_exists action s
    then if vote_exists member action s then (Raise IntegrityError, s)
         else (Ok (Some success), add_vote (mkVote member action vote t) s)
    else (Ok (Some failure), s)).
  { intros s. rewrite check_action_id.
    destruct (action_exists action s); [|reflexivity].
    rewrite insert_vote_eq; simpl. destruct (vote_exists member action s); reflexivity. }
  destruct (member_exists member st).
  - destruct (authenticates _ _ _ _ _); [apply K | reflexivity].
  - apply K.
Qed.

(** A listing is the leader check, then the query. *)
Lemma listing_eq (select : db -> list row) member password st :
  try_except
    (_verify_leader crypt now member password ;;
     fetchall <- query select ;;
     ret (Some (success_with fetchall)))
    is_InternalError
    (ret (Some failure)) st =
  if authenticates crypt now member password st && leader_exists member st
  then (Ok (Some (success_with (select st))), st)
  else (Ok (Some failure), st).
Proof.
  unfold try_except, bind. rewrite _verify_leader_eq.
  destruct (_ && _); reflexivity.
Qed.

Lemma trolls_eq timestamp st :
  trolls timestamp st =
  (Ok (Some (success_with (trolls_query (fromtimestamp timestamp) st))), st).
Proof. reflexivity. Qed.

End Steps.

(** ** Project resolution *)

Lemma action_request_eq crypt salt now statement timestamp member password action
  project authority st :
  call crypt salt now
    (action_request statement timestamp member password action project authority) st =
  _define_action crypt salt now timestamp member password action project statement
                 authority st.
Proof. destruct statement; reflexivity. Qed.

(** C6.  [_handle_project] adds a project row exactly when the project id is
    not in the table and an authority is given.  Then the new row is owned by
    that authority, whatever it is: the member table is not consulted.
    Without an authority an absent project ends in [InvalidMember]; a project
    already present leaves the store as it is.  So it is within a support or
    protest request whose member step has passed: the project table changes
    exactly when the project was absent and an authority was given, the new
    row is the authority's, and an absent project without authority makes
    the request fail. *)
Theorem _handle_project_spec :
  (forall (project : Z) (authority : option Z) (timestamp : datetime) (st : db),
     _handle_project project authority timestamp st =
       match project_exists project st, authority with
       | true, _ => (Ok tt, st)
       | false, None => (Raise InvalidMember, st)
       | false, Some a => (Ok tt, add_project (mkProject project a timestamp) st)
       end /\
     (project_tbl (snd (_handle_project project authority timestamp st)) <> project_tbl st
      <-> project_exists project st = false /\ authority <> None)) /\
  (forall crypt salt now (statement : action_type) (timestamp member : Z)
          (password : string) (action project : Z) (authority : option Z) (st : db),
     fst (_handle_member crypt salt now member password (fromtimestamp timestamp) st)
       = Ok tt ->
     let after := call crypt salt now
       (action_request statement timestamp member password action project authority) st in
     (project_tbl (snd after) <> project_tbl st
      <-> project_exists project st = false /\ authority <> None) /\
     (forall a, project_exists project st = false -> authority = Some a ->
                project_tbl (snd after) =
                project_tbl st ++ [mkProject project a (fromtimestamp timestamp)]) /\
     (project_exists project st = false -> authority = None ->
      fst after = Ok (Some failure))).
Proof.
  split.
  - intros project authority timestamp st.
    rewrite _handle_project_eq. split; [reflexivity|].
    destruct (project_exists project st); [|destruct authority as [a|]]; simpl.
    + split; [intros H; now elim H | intros [H _]; discriminate].
    + split; [intros _; split; [reflexivity | discriminate] | intros _; apply app_one_neq].
    + split; [intros H; now elim H | intros [_ H]; now elim H].
  - intros crypt salt now statement timestamp member password action project authority st.
    rewrite action_request_eq, _define_action_eq; cbv zeta.
    rewrite _handle_member_eq.
    assert (K : forall s, project_tbl s = project_tbl st ->
      let after :=
        match project_exists project s, authority with
        | true, _ =>
            if action_exists action s then (Raise IntegrityError, s)
            else (Ok (Some success),
                  add_action (mkAction action project member statement
                                       (fromtimestamp timestamp) 0 0) s)
        | false, Some a =>
            if action_exists action s
            then (Raise IntegrityError,
                  add_project (mkProject project a (fromtimestamp timestamp)) s)
            else (Ok (Some success),
                  add_action (mkAction action project member statement
                                       (fromtimestamp timestamp) 0 0)
                    (add_project (mkProject project a (fromtimestamp timestamp)) s))
        | false, None => (Ok (Some failure), s)
        end in
      (project_tbl (snd after) <> project_tbl st
       <-> project_exists project st = false /\ authority <> None) /\
      (forall a, project_exists project st = false -> authority = Some a ->
                 project_tbl (snd after) =
                 project_tbl st ++ [mkProject project a (fromtimestamp timestamp)]) /\
      (project_exists project st = false -> authority = None ->
       fst after = Ok (Some failure))).
    { intros s S.
      assert (P : project_exists project s = project_exists project st)
        by (unfold project_exists; now rewrite S).
      rewrite P.
      destruct (project_exists project st); destruct authority as [a|];
        destruct (action_exists action s); simpl; rewrite ?S;
        (split; [split; [intros H; first [now elim H | split; [reflexivity | discriminate]]
                        | intros [H1 H2];
                          first [discriminate | now elim H2 | apply app_one_neq]]
                |split; [intros a' H1 H2; first [discriminate | congruence]
                        | intros H1 H2; first [discriminate | reflexivity]]]). }
    destruct (member_exists member st); [destruct (authenticates _ _ _ _ _)|];
      simpl; intros H; try discriminate; now apply K.
Qed.

(** ** The operations *)

Lemma leader_exists_iff member st :
  leader_exists member st = true <->
  exists row, In row (member_tbl st) /\ m_id row = member /\ m_rank row = leader_rank.
Proof.
  unfold leader_exists. rewrite existsb_exists. split.
  - intros (row & I & H). apply andb_true_iff in H as [H1 H2].
    exists row. repeat split; [exact I | now apply Z.eqb_eq |].
    destruct (m_rank row); [discriminate | reflexivity].
  - intros (row & I & H1 & H2). exists row. split; [exact I|].
    rewrite H2; simpl. rewrite andb_true_r. now apply Z.eqb_eq.
Qed.

(** Case analysis on every test the closed forms of the methods make. *)
Ltac split_tests :=
  repeat match goal with
         | |- context [if ?b then _ else _] => destruct b eqn:?
         | |- context [match ?o with Some _ => _ | None => _ end] => destruct o
         end.

Section Operations.

Variable crypt : string -> string -> string.
Variable salt : string.
Variable now : datetime.

(** *** Member provisioning *)

(** The member step within the requests that have one (support, protest,
    upvote, downvote).  When no member row has the id, the member table gains
    exactly one row: that id, the hash of the given password, rank regular,
    the given timestamp.  When a row has the id and the password does not
    authenticate (no match, or a stale year), no table changes and the
    operation does not succeed. *)
Theorem provisioning_spec (r : request) (member : Z) (password : string)
  (timestamp : Z) (st : db) :
  provisioning r = Some (member, password, timestamp) ->
  (member_exists member st = false ->
   member_tbl (snd (call crypt salt now r st)) =
   member_tbl st ++
     [mkMember member (crypt password salt) regular (fromtimestamp timestamp)]) /\
  (member_exists member st = true ->
   _validate_member crypt now member password st <> (Ok tt, st) ->
   snd (call crypt salt now r st) = st /\
   reports_failure (fst (call crypt salt now r st))).
Proof.
  intros P.
  assert (V : _validate_member crypt now member password st <> (Ok tt, st) ->
              authenticates crypt now member password st = false).
  { rewrite _validate_member_eq. destruct (authenticates _ _ _ _ _); [intros H; now elim H | reflexivity]. }
  destruct r; simpl in P; try discriminate; injection P as <- <- <-;
    unfold call, support, protest, upvote, downvote;
    rewrite ?_define_action_eq, ?_vote_eq; cbv zeta; rewrite _handle_member_eq;
    (split; [intros E; rewrite E | intros E N; rewrite E, (V N); simpl; auto]).
  all: split_tests; reflexivity.
Qed.

(** A member that has a row and fails authentication is handled as a member
    without a row: the member step is then the creation step. *)
Lemma _handle_member_retries_creation (member : Z) (password : string)
  (timestamp : datetime) (st : db) :
  member_exists member st = true ->
  _validate_member crypt now member password st = (Raise InvalidMember, st) ->
  _handle_member crypt salt now member password timestamp st =
  _create_member crypt salt member password regular timestamp st.
Proof.
  intros E V. rewrite _handle_member_eq, _create_member_eq, E.
  rewrite _validate_member_eq in V.
  destruct (authenticates crypt now member password st); [discriminate | reflexivity].
Qed.

(** *** Leader creation *)

(** C7, as the code has it.  A [leader] request for an id that already has a
    member row, whatever the password, changes no table, so the row keeps its
    rank and its activity timestamp, and does not succeed. *)
Theorem leader_on_existing_member (timestamp : Z) (password : string)
  (member : Z) (st : db) :
  member_exists member st = true ->
  snd (leader crypt salt timestamp password member st) = st /\
  reports_failure (fst (leader crypt salt timestamp password member st)).
Proof.
  intros E. rewrite leader_eq, E. simpl. auto.
Qed.

(** *** Listings *)

(** C8.  A listing asked for by a member none of whose rows has rank leader
    returns the failure envelope, whatever the password and the year.  A
    listing succeeds exactly when the credentials authenticate and a row
    with that id has rank leader; otherwise it is the failure envelope. *)
Theorem listing_requires_leader (r : request) (member : Z) (password : string)
  (st : db) :
  listing r = Some (member, password) ->
  ((forall row, In row (member_tbl st) -> m_id row = member -> m_rank row = regular) ->
   call crypt salt now r st = (Ok (Some failure), st)) /\
  (returns_success (fst (call crypt salt now r st)) <->
   _validate_member crypt now member password st = (Ok tt, st) /\
   exists row, In row (member_tbl st) /\ m_id row = member /\ m_rank row = leader_rank) /\
  (returns_success (fst (call crypt salt now r st)) \/
   call crypt salt now r st = (Ok (Some failure), st)).
Proof.
  intros L.
  assert (K : exists select,
    call crypt salt now r st =
    if authenticates crypt now member password st && leader_exists member st
    then (Ok (Some (success_with (select st))), st)
    else (Ok (Some failure), st)).
  { destruct r; simpl in L; try discriminate; injection L as <- <-;
      eexists; unfold call, actions, projects, votes; cbv zeta; apply listing_eq. }
  destruct K as (select & K). rewrite K. rewrite <- leader_exists_iff.
  rewrite _validate_member_eq.
  split; [|split].
  - intros R. destruct (leader_exists member st) eqn:E.
    + apply leader_exists_iff in E as (row & I & H1 & H2).
      rewrite (R row I H1) in H2. discriminate.
    + now rewrite andb_false_r.
  - destruct (authenticates _ _ _ _ _), (leader_exists member st); simpl; split.
    all: try (intros (x & H & S); injection H as <-; discriminate).
    all: try (intros [H1 H2]; discriminate).
    + intros _. split; reflexivity.
    + intros _. eexists. split; reflexivity.
  - destruct (_ && _); [left | right; reflexivity].
    eexists. split; reflexivity.
Qed.

(** *** What the operations leave alone *)

(** An operation leaves the member table as it is or appends one row, whose
    id was not in the table. *)
Lemma call_members_grow (r : request) (st : db) :
  member_tbl (snd (call crypt salt now r st)) = member_tbl st \/
  exists row, member_exists (m_id row) st = false /\
              member_tbl (snd (call crypt salt now r st)) = member_tbl st ++ [row].
Proof.
  destruct r; unfold call, support, protest, upvote, downvote, actions, projects, votes;
    cbv zeta;
    rewrite ?leader_eq, ?_define_action_eq, ?_vote_eq, ?listing_eq, ?trolls_eq;
    cbv zeta; rewrite ?_handle_member_eq.
  all: split_tests; simpl; try (now left).
  all: right; eexists; (split; [|reflexivity]); simpl; assumption.
Qed.

Lemma member_ids_stay_unique (r : request) (st : db) :
  NoDup (map m_id (member_tbl st)) ->
  NoDup (map m_id (member_tbl (snd (call crypt salt now r st)))).
Proof.
  intros N. destruct (call_members_grow r st) as [E|(row & F & E)]; rewrite E; [exact N|].
  rewrite map_app. simpl. apply NoDup_app_one; [exact N|].
  intros I. apply in_map_iff in I as (x & Hx & Ix).
  unfold member_exists in F.
  assert (T : existsb (fun r0 => m_id r0 =? m_id row) (member_tbl st) = true).
  { apply existsb_exists. exists x. split; [exact Ix | now apply Z.eqb_eq]. }
  congruence.
Qed.

(** C9.  Whatever the operation, the member table afterwards starts with the
    member table before: each row that was there is still there, at its
    place, with its rank and its activity timestamp. *)
Theorem existing_members_unchanged (r : request) (st : db) :
  (exists extra,
     member_tbl (snd (call crypt salt now r st)) = member_tbl st ++ extra) /\
  (forall i row,
     nth_error (member_tbl st) i = Some row ->
     exists row',
       nth_error (member_tbl (snd (call crypt salt now r st))) i = Some row' /\
       m_id row' = m_id row /\ m_rank row' = m_rank row /\
       m_activity_date row' = m_activity_date row).
Proof.
  assert (G : exists extra,
    member_tbl (snd (call crypt salt now r st)) = member_tbl st ++ extra).
  { destruct (call_members_grow r st) as [E|(row & _ & E)]; rewrite E;
      [exists []; now rewrite app_nil_r | now exists [row]]. }
  destruct G as (extra & E).
  split; [now exists extra|].
  intros i row H. exists row. rewrite E. split; [|auto].
  rewrite nth_error_app1; [exact H|].
  apply nth_error_Some. congruence.
Qed.

(** *** Actions on a project that exists *)

(** C10.  When the project id is already in the project table, a support or
    protest request yields the same outcome and the same store whatever its
    authority argument.  If moreover the member step goes through and the
    action id is unused, the action row is appended and the status is the
    success status. *)
Theorem authority_ignored_for_existing_project (statement : action_type)
  (timestamp member : Z) (password : string) (action project : Z)
  (authority authority' : option Z) (st : db) :
  project_exists project st = true ->
  call crypt salt now
    (action_request statement timestamp member password action project authority) st =
  call crypt salt now
    (action_request statement timestamp member password action project authority') st /\
  (fst (_handle_member crypt salt now member password (fromtimestamp timestamp) st) = Ok tt ->
   action_exists action st = false ->
   fst (call crypt salt now
          (action_request statement timestamp member password action project authority) st)
     = Ok (Some success) /\
   action_tbl (snd (call crypt salt now
          (action_request statement timestamp member password action project authority) st))
     = action_tbl st ++
       [mkAction action project member statement (fromtimestamp timestamp) 0 0]).
Proof.
  intros P.
  assert (C : forall au,
    call crypt salt now
      (action_request statement timestamp member password action project au) st =
    _define_action crypt salt now timestamp member password action project statement au st).
  { intros au. destruct statement; reflexivity. }
  rewrite !C, !_define_action_eq; cbv zeta.
  rewrite _handle_member_eq.
  destruct (member_exists member st).
  - destruct (authenticates _ _ _ _ _); simpl.
    + rewrite P. split; [reflexivity|]. intros _ A. rewrite A. simpl. auto.
    + split; [reflexivity | discriminate].
  - change (project_exists project (add_member
              (mkMember member (crypt password salt) regular (fromtimestamp timestamp)) st))
      with (project_exists project st).
    change (action_exists action (add_member
              (mkMember member (crypt password salt) regular (fromtimestamp timestamp)) st))
      with (action_exists action st).
    rewrite P. split; [reflexivity|]. intros _ A. rewrite A. simpl. auto.
Qed.

End Operations.

(** ** Votes *)

Section Votes.

Variable crypt : string -> string -> string.
Variable salt : string.
Variable now : datetime.

(** A vote by a member who authenticates, or who is new, on an action that
    exists and that the member has not voted on, is recorded. *)
Lemma first_vote_recorded timestamp member password action vote st :
  member_exists member st = false \/ authenticates crypt now member password st = true ->
  action_exists action st = true ->
  vote_exists member action st = false ->
  fst (_vote crypt salt now timestamp member password action vote st) = Ok (Some success) /\
  vote_tbl (snd (_vote crypt salt now timestamp member password action vote st)) =
  vote_tbl st ++ [mkVote member action vote (fromtimestamp timestamp)].
Proof.
  intros M A V. rewrite _vote_eq; cbv zeta. rewrite _handle_member_eq.
  assert (K : forall s,
    action_exists action s = true -> vote_exists member action s = false ->
    vote_tbl s = vote_tbl st ->
    let o := if action_exists action s
             then if vote_exists member action s
                  then (@Raise (option response) IntegrityError, s)
                  else (Ok (Some success),
                        add_vote (mkVote member action vote (fromtimestamp timestamp)) s)
             else (Ok (Some failure), s) in
    fst o = Ok (Some success) /\
    vote_tbl (snd o) = vote_tbl st ++ [mkVote member action vote (fromtimestamp timestamp)]).
  { intros s A' V' S. rewrite A', V'. simpl. rewrite S. auto. }
  destruct (member_exists member st).
  - destruct M as [M|M]; [discriminate|]. rewrite M. now apply K.
  - now apply K.
Qed.

(** Once a member's vote on an action is in the table, a further vote of
    that member on that action is not recorded and does not succeed. *)
Lemma repeated_vote_not_recorded timestamp member password action vote st :
  vote_exists member action st = true ->
  reports_failure (fst (_vote crypt salt now timestamp member password action vote st)) /\
  vote_tbl (snd (_vote crypt salt now timestamp member password action vote st)) =
  vote_tbl st.
Proof.
  intros V. rewrite _vote_eq; cbv zeta. rewrite _handle_member_eq.
  assert (K : forall s,
    vote_exists member action s = true -> vote_tbl s = vote_tbl st ->
    let o := if action_exists action s
             then if vote_exists member action s
                  then (@Raise (option response) IntegrityError, s)
                  else (Ok (Some success),
                        add_vote (mkVote member action vote (fromtimestamp timestamp)) s)
             else (Ok (Some failure), s) in
    reports_failure (fst o) /\ vote_tbl (snd o) = vote_tbl st).
  { intros s V' S. rewrite V'. destruct (action_exists action s); simpl; auto. }
  destruct (member_exists member st); [destruct (authenticates _ _ _ _ _)|].
  - now apply K.
  - simpl. auto.
  - now apply K.
Qed.

(** No operation puts a second vote of a member on an action in the table. *)
Lemma vote_keys_stay_unique (r : request) (st : db) :
  NoDup (map vote_key (vote_tbl st)) ->
  NoDup (map vote_key (vote_tbl (snd (call crypt salt now r st)))).
Proof.
  intros N.
  assert (K : forall m a v t s, vote_tbl s = vote_tbl st ->
    NoDup (map vote_key (vote_tbl
      (snd (if vote_exists m a s then (@Raise (option response) IntegrityError, s)
            else (Ok (Some success), add_vote (mkVote m a v t) s)))))).
  { intros m a v t s S. destruct (vote_exists m a s) eqn:V; simpl; rewrite S; [exact N|].
    rewrite map_app. simpl. apply NoDup_app_one; [exact N|].
    unfold vote_exists in V. rewrite S in V.
    now apply vote_exists_false_notin. }
  destruct r; unfold call, support, protest, upvote, downvote, actions, projects, votes;
    cbv zeta;
    rewrite ?leader_eq, ?_define_action_eq, ?_vote_eq, ?listing_eq, ?trolls_eq;
    cbv zeta; rewrite ?_handle_member_eq.
  1-3, 6-9: split_tests; exact N.
  all: destruct (member_exists _ _); [destruct (authenticates _ _ _ _ _)|]; simpl;
    try exact N;
    (destruct (action_exists _ _); [apply K; reflexivity | exact N]).
Qed.

End Votes.

(** ** Outcomes *)

Section Outcomes.

Variable crypt : string -> string -> string.
Variable salt : string.
Variable now : datetime.

(** An operation ends in one of four ways. *)
Lemma call_outcomes (r : request) (st : db) :
  fst (call crypt salt now r st) = Ok None \/
  (exists rows, fst (call crypt salt now r st) = Ok (Some (mkResponse STATUS_SUCCESS rows))) \/
  fst (call crypt salt now r st) = Ok (Some failure) \/
  fst (call crypt salt now r st) = Raise IntegrityError.
Proof.
  destruct r; unfold call, support, protest, upvote, downvote, actions, projects, votes;
    cbv zeta;
    rewrite ?leader_eq, ?_define_action_eq, ?_vote_eq, ?listing_eq, ?trolls_eq;
    cbv zeta; rewrite ?_handle_member_eq;
    split_tests; simpl; auto;
    right; left; eexists; reflexivity.
Qed.

(** The two policy errors never leave an operation. *)
Lemma policy_errors_are_caught (r : request) (st : db) :
  fst (call crypt salt now r st) <> Raise InvalidMember /\
  fst (call crypt salt now r st) <> Raise InvalidRowCount.
Proof.
  destruct (call_outcomes r st) as [H|[(rows & H)|[H|H]]]; rewrite H;
    split; discriminate.
Qed.

(** The listings and [trolls] always return an envelope and write nothing. *)
Lemma reads_return_envelope (r : request) (st : db) :
  listing r <> None \/ (exists t, r = Trolls t) ->
  returns_envelope (fst (call crypt salt now r st)) /\
  snd (call crypt salt now r st) = st.
Proof.
  intros H.
  destruct r; simpl in H; try (destruct H as [H|(t & H)]; [now elim H | discriminate]);
    unfold call, actions, projects, votes; cbv zeta;
    rewrite ?listing_eq, ?trolls_eq; split_tests; simpl;
    (split; [eexists; split; [reflexivity | auto] | reflexivity]).
Qed.

End Outcomes.

(** ** The troll query *)

Lemma insert_sorted_In {A} (le : A -> A -> bool) (x y : A) (l : list A) :
  In y (insert_sorted le x l) <-> y = x \/ In y l.
Proof.
  induction l as [|z l IH]; simpl.
  - split; [intros [H|[]]; now left | intros [H|[]]; now left].
  - destruct (le x z); simpl; [split; intros [H|H]; auto|].
    rewrite IH. split; [intros [H|[H|H]] | intros [H|[H|H]]]; auto.
Qed.

Lemma order_by_In {A} (le : A -> A -> bool) (y : A) (l : list A) :
  In y (order_by le l) <-> In y l.
Proof.
  unfold order_by. induction l as [|x l IH]; simpl; [tauto|].
  rewrite insert_sorted_In, IH. split; intros [H|H]; auto.
Qed.

Lemma same_group_refl r : same_group r r = true.
Proof. unfold same_group. now rewrite !Z.eqb_refl. Qed.

Lemma add_to_groups_heads r gs g :
  In g (add_to_groups r gs) -> fst g = r \/ exists g0, In g0 gs /\ fst g0 = fst g.
Proof.
  induction gs as [|[h t] gs IH]; simpl.
  - intros [H|[]]. left. now rewrite <- H.
  - destruct (same_group r h); simpl.
    + intros [H|H]; right.
      * exists (h, t). split; [now left | now rewrite <- H].
      * exists g. split; [now right | reflexivity].
    + intros [H|H].
      * right. exists (h, t). split; [now left | now rewrite <- H].
      * destruct (IH H) as [E|(g0 & I & E)]; [now left|].
        right. exists g0. split; [now right | exact E].
Qed.

Lemma add_to_groups_covers r gs :
  (exists g, In g (add_to_groups r gs) /\ same_group r (fst g) = true) /\
  (forall g0, In g0 gs -> exists g, In g (add_to_groups r gs) /\ fst g = fst g0).
Proof.
  induction gs as [|[h t] gs [IH1 IH2]]; simpl.
  - split; [|intros g0 []].
    exists (r, []). split; [now left | apply same_group_refl].
  - destruct (same_group r h) eqn:E; simpl.
    + split.
      * exists (h, t ++ [r]). split; [now left | exact E].
      * intros g0 [H|H].
        -- exists (h, t ++ [r]). split; [now left | now rewrite <- H].
        -- exists g0. split; [now right | reflexivity].
    + split.
      * destruct IH1 as (g & I & S). exists g. split; [now right | exact S].
      * intros g0 [H|H].
        -- exists (h, t). split; [now left | now rewrite <- H].
        -- destruct (IH2 g0 H) as (g & I & S). exists g. split; [now right | exact S].
Qed.

Lemma fold_groups_heads rows : forall gs g,
  In g (fold_left (fun gs r => add_to_groups r gs) rows gs) ->
  In (fst g) rows \/ exists g0, In g0 gs /\ fst g0 = fst g.
Proof.
  induction rows as [|r rows IH]; simpl; intros gs g H.
  - right. now exists g.
  - destruct (IH _ _ H) as [I|(g1 & I & E)]; [left; now right|].
    destruct (add_to_groups_heads _ _ _ I) as [F|(g0 & I0 & F)].
    + left. left. congruence.
    + right. exists g0. split; [exact I0 | congruence].
Qed.

Lemma fold_groups_covers rows : forall gs,
  (forall r, In r rows ->
     exists g, In g (fold_left (fun gs r => add_to_groups r gs) rows gs) /\
               same_group r (fst g) = true) /\
  (forall g0, In g0 gs ->
     exists g, In g (fold_left (fun gs r => add_to_groups r gs) rows gs) /\
               fst g = fst g0).
Proof.
  induction rows as [|r rows IH]; simpl; intros gs.
  - split; [intros r [] | intros g0 I; now exists g0].
  - destruct (IH (add_to_groups r gs)) as [IH1 IH2].
    destruct (add_to_groups_covers r gs) as [(g1 & I1 & S1) C2].
    split.
    + intros r' [<-|I]; [|now apply IH1].
      destruct (IH2 g1 I1) as (g & I & E). exists g. split; [exact I | now rewrite E].
    + intros g0 I0. destruct (C2 g0 I0) as (g1' & I1' & E1).
      destruct (IH2 g1' I1') as (g & I & E). exists g. split; [exact I | congruence].
Qed.

Lemma trolls_join_In m a st :
  In (m, a) (trolls_join st) <->
  In m (member_tbl st) /\ In a (action_tbl st) /\ a_id_member a = m_id m.
Proof.
  unfold trolls_join. rewrite in_flat_map. split.
  - intros (m' & Im & H). apply in_map_iff in H as (a' & E & Ia).
    injection E as -> ->. apply filter_In in Ia as [Ia T].
    apply Z.eqb_eq in T. auto.
  - intros (Im & Ia & E). exists m. split; [exact Im|].
    apply in_map. apply filter_In. split; [exact Ia | apply Z.eqb_eq; auto].
Qed.

(** What the query of [trolls] returns, as a rule on members: a member id
    heads a returned row exactly when the member has a row and authored some
    action that, alone, has more downvotes than upvotes. *)
Lemma trolls_query_members (timestamp : datetime) (st : db) (member : Z) :
  (exists row, In row (trolls_query timestamp st) /\ hd_error row = Some (VInt member))
  <->
  (exists m a, In m (member_tbl st) /\ In a (action_tbl st) /\ m_id m = member /\
               a_id_member a = member /\ a_upvotes a < a_downvotes a).
Proof.
  unfold trolls_query, group_by. split.
  - intros (row & I & H). apply in_map_iff in I as ([h t] & E & I).
    apply order_by_In in I. apply fold_groups_heads in I as [I|(g0 & [] & _)].
    simpl in I. apply filter_In in I as [I T]. destruct h as [m a].
    apply trolls_join_In in I as (Im & Ia & Ea).
    subst row. simpl in H, T. injection H as H. apply Z.ltb_lt in T.
    exists m, a. repeat split; auto; lia.
  - intros (m & a & Im & Ia & Em & Ea & T).
    assert (I : In (m, a) (filter (fun j => 0 <? a_downvotes (snd j) - a_upvotes (snd j))
                                  (trolls_join st))).
    { apply filter_In. split; [apply trolls_join_In; repeat split; auto; congruence|].
      simpl. apply Z.ltb_lt. lia. }
    destruct (fold_groups_covers
                (filter (fun j => 0 <? a_downvotes (snd j) - a_upvotes (snd j))
                        (trolls_join st)) []) as [C _].
    destruct (C _ I) as ([h t] & Ig & S).
    exists (trolls_select timestamp (h, t)). split.
    + apply in_map. now apply order_by_In.
    + simpl. unfold same_group in S. simpl in S.
      apply andb_true_iff in S as [S _]. apply andb_true_iff in S as [S _].
      apply Z.eqb_eq in S. now rewrite <- S, Em.
Qed.

(** ** The operations on concrete stores *)

(** The specification's example: A (1 up, 5 down), B (0 up, 3 down) and
    C (2 up, 2 down), one action each, give A then B. *)
Example trolls_one_action_each :
  map tally (action_tbl st_abc) = [(12, 3, 2, 2); (11, 2, 0, 3); (10, 1, 1, 5)] /\
  fst (trolls t2019 st_abc) =
  Ok (Some (success_with [[VInt 1; VInt 1; VInt 5; VBool true];
                          [VInt 2; VInt 0; VInt 3; VBool true]])) /\
  troll_columns (fst (trolls t2019 st_abc)) = spec_troll_columns st_abc.
Proof. repeat split; vm_compute; reflexivity. Qed.

(** C1, where the query and the rule part.  The query keeps the actions with
    more downvotes than upvotes and groups them by member and by the two
    counters.  In [st_mixed] member 1 has 5 upvotes and 3 downvotes in all
    and is no troll, yet is returned for the action with 3 downvotes.  In
    [st_twice] member 1 is a troll with totals 0 and 5, and is returned
    twice, once per action, with the counts of that action. *)
Theorem trolls_filters_and_groups_per_action :
  (map tally (action_tbl st_mixed) = [(10, 1, 0, 3); (11, 1, 5, 0)] /\
   total_upvotes 1 st_mixed = 5 /\ total_downvotes 1 st_mixed = 3 /\
   spec_is_troll 1 st_mixed = false /\ spec_troll_columns st_mixed = [] /\
   fst (trolls t2019 st_mixed) =
     Ok (Some (success_with [[VInt 1; VInt 0; VInt 3; VBool true]]))) /\
  (map tally (action_tbl st_twice) = [(10, 1, 0, 3); (11, 1, 0, 2)] /\
   spec_troll_columns st_twice = [[VInt 1; VInt 0; VInt 5]] /\
   fst (trolls t2019 st_twice) =
     Ok (Some (success_with [[VInt 1; VInt 0; VInt 3; VBool true];
                             [VInt 1; VInt 0; VInt 2; VBool true]]))).
Proof. repeat split; vm_compute; reflexivity. Qed.

(** With a vote in the table, an authenticated member and an existing
    action, the vote path goes all the way to the insert, which the store's
    key rejects. *)
Lemma repeated_vote_reaches_the_insert crypt salt now timestamp member password
  action vote st :
  member_exists member st = true ->
  authenticates crypt now member password st = true ->
  action_exists action st = true ->
  vote_exists member action st = true ->
  _vote crypt salt now timestamp member password action vote st =
  (Raise IntegrityError, st).
Proof.
  intros M A E V. rewrite _vote_eq; cbv zeta. rewrite _handle_member_eq.
  rewrite M, A. cbn beta iota. now rewrite E, V.
Qed.

(** C2, on the store where member 3 has upvoted action 10.  The check
    [_verify_if_voted] would stop a further vote with [InvalidRowCount];
    [_vote] does not run it: the further upvote or downvote reaches the
    insert and ends with the store's [IntegrityError], which leaves the
    operation. *)
Theorem repeated_vote_skips_the_existence_check :
  vote_exists 3 10 st_voted = true /\
  authenticates demo_crypt demo_now 3 "y" st_voted = true /\
  action_exists 10 st_voted = true /\
  _verify_if_voted 3 10 st_voted = (Raise InvalidRowCount, st_voted) /\
  demo_call (Upvote t2019 3 "y" 10) st_voted = (Raise IntegrityError, st_voted) /\
  demo_call (Downvote t2019 3 "y" 10) st_voted = (Raise IntegrityError, st_voted).
Proof. repeat split; reflexivity. Qed.

(** C4, where an operation yields no envelope.  A [leader] request that
    creates its member returns [None].  A support request whose action id is
    in use, a repeated [leader] request and a downvote with a wrong password
    end with the store's [IntegrityError], which [except
    psycopg2.InternalError] lets through. *)
Theorem leader_and_key_errors_yield_no_envelope :
  (fst (demo_call (Leader t2019 "pw" 1) empty_db) = Ok None /\
   ~ returns_envelope (fst (demo_call (Leader t2019 "pw" 1) empty_db))) /\
  (fst (demo_call (Support t2019 2 "x" 10 100 None) st_action) = Raise IntegrityError /\
   ~ returns_envelope (fst (demo_call (Support t2019 2 "x" 10 100 None) st_action))) /\
  fst (demo_call (Leader t2019 "pw" 1) st_leader) = Raise IntegrityError /\
  fst (demo_call (Downvote t2019 3 "bad" 10) st_voted) = Raise IntegrityError.
Proof.
  repeat split; try reflexivity;
    intros (r & H & _); vm_compute in H; discriminate.
Qed.

(** C3, where the member step parts from it.  Member 3 has a row in
    [st_voted].  With a wrong password, and with the right password in a
    stale year, [_validate_member] raises [InvalidMember]; [_handle_member]
    catches it as it catches a missing row and does what it does for a
    member never seen: it runs the insert of a fresh regular account.  The
    authentication failure is not what comes out: the insert meets the
    store's key and its [IntegrityError] leaves the operation. *)
Theorem failed_authentication_is_retried_as_creation :
  member_exists 3 st_voted = true /\
  (_validate_member demo_crypt demo_now 3 "bad" st_voted
     = (Raise InvalidMember, st_voted) /\
   _handle_member demo_crypt demo_salt demo_now 3 "bad" (fromtimestamp t2019) st_voted
     = _create_member demo_crypt demo_salt 3 "bad" regular (fromtimestamp t2019) st_voted /\
   _handle_member demo_crypt demo_salt demo_now 3 "bad" (fromtimestamp t2019) st_voted
     = (Raise IntegrityError, st_voted) /\
   demo_call (Downvote t2019 3 "bad" 10) st_voted = (Raise IntegrityError, st_voted)) /\
  (_validate_member demo_crypt (fromtimestamp 1600000000) 3 "y" st_voted
     = (Raise InvalidMember, st_voted) /\
   _handle_member demo_crypt demo_salt (fromtimestamp 1600000000) 3 "y"
                  (fromtimestamp 1600000000) st_voted
     = _create_member demo_crypt demo_salt 3 "y" regular (fromtimestamp 1600000000)
                      st_voted /\
   call demo_crypt demo_salt (fromtimestamp 1600000000)
        (Support 1600000000 3 "y" 11 100 None) st_voted
     = (Raise IntegrityError, st_voted)).
Proof. repeat split; vm_compute; reflexivity. Qed.

Lemma provisioning_spec_witness :
  (member_exists 3 st_action = false /\
   member_tbl (snd (demo_call (Upvote t2019 3 "y" 10) st_action)) =
   member_tbl st_action ++
     [mkMember 3 (demo_crypt "y" demo_salt) regular (fromtimestamp t2019)]) /\
  (member_exists 3 st_voted = true /\
   _validate_member demo_crypt demo_now 3 "bad" st_voted <> (Ok tt, st_voted) /\
   snd (demo_call (Downvote t2019 3 "bad" 10) st_voted) = st_voted /\
   reports_failure (fst (demo_call (Downvote t2019 3 "bad" 10) st_voted))).
Proof.
  split.
  - split; [reflexivity|].
    apply (provisioning_spec demo_crypt demo_salt demo_now
             (Upvote t2019 3 "y" 10) 3 "y" t2019 st_action eq_refl).
    reflexivity.
  - split; [reflexivity|].
    assert (N : _validate_member demo_crypt demo_now 3 "bad" st_voted <> (Ok tt, st_voted)).
    { vm_compute. intros H. discriminate. }
    split; [exact N|].
    apply (provisioning_spec demo_crypt demo_salt demo_now
             (Downvote t2019 3 "bad" 10) 3 "bad" t2019 st_voted eq_refl);
      [reflexivity | exact N].
Defined.

(** C5 as stated fails when the year of the request is the year of its
    timestamp.  Member 3 of [st_voted] has activity year 2019 and password
    "y".  A request stamped 2019 and served while the clock shows 2020 fails
    authentication although the years of member and request agree; a request
    stamped 2020 and served while the clock shows 2019 authenticates although
    they differ. *)
Lemma clock_year_decides_not_request_year :
  (In (mkMember 3 (demo_crypt "y" demo_salt) regular (fromtimestamp t2019))
      (member_tbl st_voted) /\
   demo_crypt "y" demo_salt = demo_crypt "y" (demo_crypt "y" demo_salt)) /\
  (year (fromtimestamp t2019) = 2019 /\
   year (fromtimestamp 1600000000) = 2020 /\
   _validate_member demo_crypt (fromtimestamp 1600000000) 3 "y" st_voted
     = (Raise InvalidMember, st_voted) /\
   call demo_crypt demo_salt (fromtimestamp 1600000000)
        (Support t2019 3 "y" 11 100 None) st_voted
     = (Raise IntegrityError, st_voted)) /\
  (year demo_now = 2019 /\
   _validate_member demo_crypt demo_now 3 "y" st_voted = (Ok tt, st_voted) /\
   fst (call demo_crypt demo_salt demo_now
          (Support 1600000000 3 "y" 11 100 None) st_voted)
     = Ok (Some success)).
Proof.
  repeat split; try (vm_compute; reflexivity).
  vm_compute. right. right. now left.
Qed.

Lemma _validate_member_spec_witness :
  quote_free "y" = true /\
  _validate_member demo_crypt demo_now 3 "y" st_voted = (Ok tt, st_voted).
Proof.
  split; [reflexivity|].
  apply (proj1 (proj2 (_validate_member_spec demo_crypt demo_now 3 "y" st_voted eq_refl))).
  exists (mkMember 3 (demo_crypt "y" demo_salt) regular (fromtimestamp t2019)).
  split; [|reflexivity].
  exists [mkMember 1 (demo_crypt "pw" demo_salt) leader_rank (fromtimestamp t2019);
          mkMember 2 (demo_crypt "x" demo_salt) regular (fromtimestamp t2019)], [].
  split; [reflexivity|]. split.
  - intros x [<-|[<-|[]]] [H _]; discriminate.
  - split; reflexivity.
Defined.

(** C7 as stated fails: the [leader] request that created member 1,
    repeated with the same password on the store it produced, does not return
    a success status. *)
Lemma repeated_leader_is_no_success :
  member_exists 1 st_leader = true /\
  authenticates demo_crypt demo_now 1 "pw" st_leader = true /\
  ~ returns_success (fst (demo_call (Leader t2019 "pw" 1) st_leader)).
Proof.
  split; [reflexivity|]. split; [reflexivity|].
  intros (r & H & _). vm_compute in H. discriminate.
Qed.

Lemma leader_on_existing_member_witness :
  member_exists 1 st_leader = true /\
  snd (leader demo_crypt demo_salt t2019 "pw" 1 st_leader) = st_leader /\
  reports_failure (fst (leader demo_crypt demo_salt t2019 "pw" 1 st_leader)).
Proof.
  split; [reflexivity|].
  apply (leader_on_existing_member demo_crypt demo_salt t2019 "pw" 1 st_leader).
  reflexivity.
Defined.

Lemma listing_requires_leader_witness :
  authenticates demo_crypt demo_now 2 "x" st_voted = true /\
  (forall row, In row (member_tbl st_voted) -> m_id row = 2 -> m_rank row = regular) /\
  demo_call (Actions 2 "x" None None None) st_voted = (Ok (Some failure), st_voted) /\
  returns_success (fst (demo_call (Votes 1 "pw" None (Some 100)) st_voted)).
Proof.
  assert (R : forall row, In row (member_tbl st_voted) -> m_id row = 2 ->
                          m_rank row = regular).
  { intros row I E. vm_compute in I.
    destruct I as [I|[I|[I|[]]]]; subst row; try reflexivity; discriminate. }
  split; [reflexivity|]. split; [exact R|]. split.
  - apply (listing_requires_leader demo_crypt demo_salt demo_now
             (Actions 2 "x" None None None) 2 "x" st_voted eq_refl).
    exact R.
  - apply (listing_requires_leader demo_crypt demo_salt demo_now
             (Votes 1 "pw" None (Some 100)) 1 "pw" st_voted eq_refl).
    split; [reflexivity|].
    eexists. split; [left; reflexivity | split; reflexivity].
Defined.

Lemma existing_members_unchanged_witness :
  nth_error (member_tbl st_voted) 1 =
    Some (mkMember 2 (demo_crypt "x" demo_salt) regular (fromtimestamp t2019)) /\
  exists row',
    nth_error (member_tbl (snd (demo_call (Leader 1600000000 "other" 2) st_voted))) 1 =
      Some row' /\
    m_id row' = 2 /\ m_rank row' = regular /\
    m_activity_date row' = fromtimestamp t2019.
Proof.
  split; [reflexivity|].
  apply (proj2 (existing_members_unchanged demo_crypt demo_salt demo_now
                  (Leader 1600000000 "other" 2) st_voted) 1%nat
               (mkMember 2 (demo_crypt "x" demo_salt) regular (fromtimestamp t2019))).
  reflexivity.
Defined.

Lemma authority_ignored_for_existing_project_witness :
  project_exists 100 st_voted = true /\
  demo_call (Protest t2019 2 "x" 11 100 None) st_voted =
  demo_call (Protest t2019 2 "x" 11 100 (Some 3)) st_voted /\
  fst (demo_call (Protest t2019 2 "x" 11 100 None) st_voted) = Ok (Some success) /\
  action_tbl (snd (demo_call (Protest t2019 2 "x" 11 100 None) st_voted)) =
  action_tbl st_voted ++ [mkAction 11 100 2 protest_type (fromtimestamp t2019) 0 0].
Proof.
  split; [reflexivity|].
  destruct (authority_ignored_for_existing_project demo_crypt demo_salt demo_now
              protest_type t2019 2 "x" 11 100 None (Some 3) st_voted eq_refl) as [E R].
  split; [exact E|].
  apply R; reflexivity.
Defined.

Lemma _handle_project_spec_witness :
  fst (_handle_member demo_crypt demo_salt demo_now 2 "x" (fromtimestamp t2019) st_voted)
    = Ok tt /\
  project_exists 101 st_voted = false /\
  member_exists 77 st_voted = false /\
  project_tbl (snd (demo_call (Support t2019 2 "x" 11 101 (Some 77)) st_voted)) =
  project_tbl st_voted ++ [mkProject 101 77 (fromtimestamp t2019)].
Proof.
  split; [reflexivity|]. split; [reflexivity|]. split; [reflexivity|].
  pose proof (proj2 _handle_project_spec demo_crypt demo_salt demo_now support_type
                t2019 2 "x" 11 101 (Some 77) st_voted eq_refl) as H.
  cbv zeta in H. destruct H as (_ & H & _).
  apply (H 77); reflexivity.
Defined.

(** * Further properties of the code *)

(** ** Conditions and existence checks *)

Lemma _generate_condition_from kw : forall acc,
  fold_left (fun res pair => match snd pair with
                             | None => res
                             | Some v => res ++ [(fst pair, v)]
                             end) kw acc =
  acc ++ flat_map (fun pair : string * option value =>
                     match snd pair with
                     | None => []
                     | Some v => [(fst pair, v)]
                     end) kw.
Proof.
  induction kw as [|[k [v|]] kw IH]; simpl; intros acc.
  - now rewrite app_nil_r.
  - rewrite IH. now rewrite <- app_assoc.
  - apply IH.
Qed.

Lemma holds_generate_condition (kw : kwargs) (row : columns) :
  holds (_generate_condition kw) row = true <-> Forall (kwarg_holds row) kw.
Proof.
  unfold _generate_condition. rewrite _generate_condition_from. simpl.
  unfold holds. induction kw as [|[k [v|]] kw IH]; simpl.
  - split; [constructor | reflexivity].
  - rewrite andb_true_iff, IH. split.
    + intros [H1 H2]. constructor; [|exact H2].
      unfold kwarg_holds; simpl. destruct (row k) as [w|]; [|discriminate].
      now exists w.
    + intros H. inversion H as [|x l H1 H2]; subst. split; [|exact H2].
      unfold kwarg_holds in H1; simpl in H1. destruct H1 as (w & E & V).
      now rewrite E.
  - rewrite IH. split.
    + intros H. constructor; [exact I | exact H].
    + intros H. now inversion H.
Qed.

(** X1.  [_generate_condition] keeps, in their order, the keywords that have
    a value and drops those that are [None]; a row passes the condition
    exactly when it has, for each keyword with a value, that value in the
    column of that name.  With every keyword absent each row passes. *)
Theorem _generate_condition_spec (kw : kwargs) :
  _generate_condition kw =
    flat_map (fun pair : string * option value =>
                match snd pair with
                | None => []
                | Some v => [(fst pair, v)]
                end) kw /\
  (forall row, holds (_generate_condition kw) row = true <->
               Forall (kwarg_holds row) kw) /\
  ((forall kv, In kv kw -> snd kv = None) ->
   forall row, holds (_generate_condition kw) row = true).
Proof.
  split; [|split].
  - unfold _generate_condition. now rewrite _generate_condition_from.
  - intros row. apply holds_generate_condition.
  - intros N row. apply holds_generate_condition.
    apply Forall_forall. intros kv I. unfold kwarg_holds. now rewrite (N kv I).
Qed.

(** X2.  [_row_existence_check] returns when some row of the table passes
    every keyword that has a value, and raises [InvalidRowCount] when none
    does; in both cases the store is left as it was.  On an empty table it
    raises whatever the keywords. *)
Theorem _row_existence_check_spec (t : table) (kw : kwargs) (st : db) :
  ((exists row, In row (rows_of t st) /\ Forall (kwarg_holds row) kw) ->
   _row_existence_check t kw st = (Ok tt, st)) /\
  ((forall row, In row (rows_of t st) -> ~ Forall (kwarg_holds row) kw) ->
   _row_existence_check t kw st = (Raise InvalidRowCount, st)) /\
  (rows_of t st = [] -> _row_existence_check t kw st = (Raise InvalidRowCount, st)).
Proof.
  rewrite _row_existence_check_eq.
  destruct (existsb _ _) eqn:E.
  - apply existsb_exists in E as (row & I & H).
    apply holds_generate_condition in H.
    split; [reflexivity|]. split.
    + intros N. elim (N row I H).
    + intros Z0. rewrite Z0 in I. elim I.
  - split; [|split; reflexivity].
    intros (row & I & H). apply holds_generate_condition in H.
    assert (T : existsb (holds (_generate_condition kw)) (rows_of t st) = true).
    { apply existsb_exists. now exists row. }
    congruence.
Qed.

(** X3.  [_verify_if_voted] raises [InvalidRowCount] exactly when the vote
    table holds a vote of that member on that action, and returns otherwise;
    it leaves the store as it was. *)
Theorem _verify_if_voted_spec (member action : Z) (st : db) :
  (_verify_if_voted member action st = (Raise InvalidRowCount, st) <->
   exists v, In v (vote_tbl st) /\ v_id_member v = member /\ v_id_action v = action) /\
  (_verify_if_voted member action st = (Ok tt, st) <->
   forall v, In v (vote_tbl st) -> ~ (v_id_member v = member /\ v_id_action v = action)).
Proof.
  unfold _verify_if_voted, bind, query. rewrite filter_none_iff_existsb, negb_involutive.
  destruct (existsb _ _) eqn:E.
  - apply existsb_exists in E as (v & I & H).
    unfold same_vote in H. apply andb_true_iff in H as [H1 H2].
    apply Z.eqb_eq in H1, H2.
    split; split; intros H; try reflexivity; try discriminate.
    + now exists v.
    + elim (H v I). auto.
  - split; split; intros H; try reflexivity; try discriminate.
    + destruct H as (v & I & H1 & H2).
      assert (T : existsb (same_vote member action) (vote_tbl st) = true).
      { apply existsb_exists. exists v. split; [exact I|].
        unfold same_vote. now rewrite H1, H2, !Z.eqb_refl. }
      congruence.
    + intros v I [H1 H2].
      assert (T : existsb (same_vote member action) (vote_tbl st) = true).
      { apply existsb_exists. exists v. split; [exact I|].
        unfold same_vote. now rewrite H1, H2, !Z.eqb_refl. }
      congruence.
Qed.

(** ** A member's first and later requests *)

Lemma vote_request_eq crypt salt now vote timestamp member password action st :
  call crypt salt now (vote_request vote timestamp member password action) st =
  _vote crypt salt now timestamp member password action vote st.
Proof. destruct vote; reflexivity. Qed.

Lemma authenticates_same_members crypt now member password s s' :
  member_tbl s = member_tbl s' ->
  authenticates crypt now member password s = authenticates crypt now member password s'.
Proof. unfold authenticates. now intros ->. Qed.

Lemma member_exists_same_members member s s' :
  member_tbl s = member_tbl s' -> member_exists member s = member_exists member s'.
Proof. unfold member_exists. now intros ->. Qed.

Lemma leader_exists_same_members member s s' :
  member_tbl s = member_tbl s' -> leader_exists member s = leader_exists member s'.
Proof. unfold leader_exists. now intros ->. Qed.

Lemma no_match_without_row crypt member password l :
  existsb (fun r => m_id r =? member) l = false ->
  filter (credentials_match crypt member password) l = [].
Proof.
  induction l as [|r l IH]; simpl; [reflexivity|].
  intros E. apply orb_false_iff in E as [E1 E2].
  unfold credentials_match at 1. rewrite E1. simpl. now apply IH.
Qed.

(** Authentication against a store whose only row for the member is the
    last one. *)
Lemma authenticates_last_row crypt now member password' hash rank date st s :
  member_exists member st = false ->
  member_tbl s = member_tbl st ++ [mkMember member hash rank date] ->
  authenticates crypt now member password' s =
  String.eqb hash (crypt password' hash) && (year now - year date =? 0).
Proof.
  intros A E. unfold authenticates. rewrite E, filter_app.
  rewrite (no_match_without_row _ _ _ _ A). simpl.
  unfold credentials_match. simpl. rewrite Z.eqb_refl. simpl.
  destruct (String.eqb hash (crypt password' hash)); reflexivity.
Qed.


Section Members.

Variable crypt : string -> string -> string.



Lemma listing_call_eq salt now r member password st :
  listing r = Some (member, password) ->
  exists select,
    call crypt salt now r st =
    if authenticates crypt now member password st && leader_exists member st
    then (Ok (Some (success_with (select st))), st)
    else (Ok (Some failure), st).
Proof.
  intros L.
  destruct r; simpl in L; try discriminate; injection L as <- <-;
    eexists; unfold call, actions, projects, votes; cbv zeta; apply listing_eq.
Qed.



(** X6.  After a [leader] request has created a member, a listing with the
    same password succeeds when the store's [crypt] checks the password
    against the hash it made and the clock shows the year of the request's
    timestamp; when the clock shows another year the listing returns the
    failure envelope. *)
Theorem leader_then_listing (salt salt' : string) (now' : datetime)
  (r : request) (member : Z) (password : string) (timestamp : Z) (st : db) :
  member_exists member st = false ->
  listing r = Some (member, password) ->
  let st1 := snd (leader crypt salt timestamp password member st) in
  (crypt password (crypt password salt) = crypt password salt ->
   year (fromtimestamp timestamp) = year now' ->
   returns_success (fst (call crypt salt' now' r st1)) /\
   snd (call crypt salt' now' r st1) = st1) /\
  (year (fromtimestamp timestamp) <> year now' ->
   call crypt salt' now' r st1 = (Ok (Some failure), st1)).
Proof.
  intros A L st1.
  assert (E : member_tbl st1 = member_tbl st ++
    [mkMember member (crypt password salt) leader_rank (fromtimestamp timestamp)]).
  { unfold st1. rewrite leader_eq, A. reflexivity. }
  assert (LE : leader_exists member st1 = true).
  { unfold leader_exists. rewrite E, existsb_app_one. simpl.
    rewrite Z.eqb_refl. apply orb_true_r. }
  destruct (listing_call_eq salt' now' r member password st1 L) as (select & K).
  rewrite K, LE, andb_true_r.
  rewrite (authenticates_last_row _ _ _ _ _ _ _ _ _ A E).
  split.
  - intros V Y. rewrite V, String.eqb_refl, Y, Z.sub_diag. simpl.
    split; [|reflexivity]. eexists. split; reflexivity.
  - intros Y.
    destruct (Z.eqb_spec (year now' - year (fromtimestamp timestamp)) 0) as [Z0|Z0];
      [lia|]. now rewrite andb_false_r.
Qed.

(** X7.  A request that fails after its member step keeps the member it has
    created: a vote by a new member on an action that does not exist, and a
    support or protest by a new member on a project that does not exist and
    without authority, return the failure envelope and leave the store with
    the new regular member row and nothing else added. *)
Theorem failed_request_keeps_new_member (salt : string) (now : datetime)
  (timestamp member : Z) (password : string) (action project : Z) (st : db) :
  member_exists member st = false ->
  let st1 := add_member
    (mkMember member (crypt password salt) regular (fromtimestamp timestamp)) st in
  (action_exists action st = false ->
   forall vote,
     call crypt salt now (vote_request vote timestamp member password action) st =
     (Ok (Some failure), st1)) /\
  (project_exists project st = false ->
   forall statement,
     call crypt salt now
       (action_request statement timestamp member password action project None) st =
     (Ok (Some failure), st1)).
Proof.
  intros A st1. split.
  - intros N vote. rewrite vote_request_eq, _vote_eq; cbv zeta.
    rewrite _handle_member_eq, A.
    change (action_exists action (add_member
              (mkMember member (crypt password salt) regular (fromtimestamp timestamp)) st))
      with (action_exists action st).
    now rewrite N.
  - intros N statement. rewrite action_request_eq, _define_action_eq; cbv zeta.
    rewrite _handle_member_eq, A.
    change (project_exists project (add_member
              (mkMember member (crypt password salt) regular (fromtimestamp timestamp)) st))
      with (project_exists project st).
    now rewrite N.
Qed.

(** X8.  An upvote or downvote succeeds exactly when the member is new or
    authenticates, the action has a row and the member has no vote on it yet.
    Then exactly that vote is appended, with the member, the action, the
    direction and the timestamp of the request; in every other case the
    vote table is left as it was. *)
Theorem vote_recorded_iff (salt : string) (now : datetime) (vote : direction)
  (timestamp member : Z) (password : string) (action : Z) (st : db) :
  let after :=
    call crypt salt now (vote_request vote timestamp member password action) st in
  (fst after = Ok (Some success) <->
   (member_exists member st = false \/ authenticates crypt now member password st = true) /\
   action_exists action st = true /\
   vote_exists member action st = false) /\
  (fst after = Ok (Some success) ->
   vote_tbl (snd after) =
   vote_tbl st ++ [mkVote member action vote (fromtimestamp timestamp)]) /\
  (fst after <> Ok (Some success) -> vote_tbl (snd after) = vote_tbl st).
Proof.
  cbv zeta. rewrite vote_request_eq, _vote_eq; cbv zeta. rewrite _handle_member_eq.
  assert (EA : forall r, action_exists action (add_member r st) = action_exists action st)
    by reflexivity.
  assert (EV : forall r, vote_exists member action (add_member r st)
                         = vote_exists member action st) by reflexivity.
  destruct (member_exists member st);
    [destruct (authenticates crypt now member password st)|];
    cbn beta iota; rewrite ?EA, ?EV;
    destruct (action_exists action st); try destruct (vote_exists member action st);
    simpl; repeat split; intros; try discriminate; try reflexivity;
    try tauto; try intuition congruence.
Qed.

(** X9.  A support or protest succeeds exactly when the member is new or
    authenticates, the project has a row or an authority is given, and the
    action id is unused.  Then exactly that action is appended, with the
    action id, the project, the member, the type, the timestamp of the
    request and both counters 0; in every other case the action table is
    left as it was. *)
Theorem action_recorded_iff (salt : string) (now : datetime) (statement : action_type)
  (timestamp member : Z) (password : string) (action project : Z)
  (authority : option Z) (st : db) :
  let after := call crypt salt now
    (action_request statement timestamp member password action project authority) st in
  (fst after = Ok (Some success) <->
   (member_exists member st = false \/ authenticates crypt now member password st = true) /\
   (project_exists project st = true \/ authority <> None) /\
   action_exists action st = false) /\
  (fst after = Ok (Some success) ->
   action_tbl (snd after) =
   action_tbl st ++
     [mkAction action project member statement (fromtimestamp timestamp) 0 0]) /\
  (fst after <> Ok (Some success) -> action_tbl (snd after) = action_tbl st).
Proof.
  cbv zeta. rewrite action_request_eq, _define_action_eq; cbv zeta.
  rewrite _handle_member_eq.
  assert (EA : forall r, action_exists action (add_member r st) = action_exists action st)
    by reflexivity.
  assert (EP : forall r, project_exists project (add_member r st)
                         = project_exists project st) by reflexivity.
  destruct (member_exists member st);
    [destruct (authenticates crypt now member password st)|];
    cbn beta iota; rewrite ?EA, ?EP;
    destruct (project_exists project st); destruct authority as [a|];
    try destruct (action_exists action st);
    simpl; repeat split; intros; try discriminate; try reflexivity;
    try tauto; try intuition congruence.
Qed.

End Members.

(** ** What every operation keeps *)

Lemma member_exists_add_member m r st :
  member_exists m st = true -> member_exists m (add_member r st) = true.
Proof.
  unfold member_exists, add_member; simpl. rewrite existsb_app_one. now intros ->.
Qed.

Lemma project_exists_add_project p r st :
  project_exists p st = true -> project_exists p (add_project r st) = true.
Proof.
  unfold project_exists, add_project; simpl. rewrite existsb_app_one. now intros ->.
Qed.

Lemma action_exists_add_action a r st :
  action_exists a st = true -> action_exists a (add_action r st) = true.
Proof.
  unfold action_exists, add_action; simpl. rewrite existsb_app_one. now intros ->.
Qed.

Lemma count_vote_ids v a :
  a_id (count_vote v a) = a_id a /\
  a_id_member (count_vote v a) = a_id_member a /\
  a_id_project (count_vote v a) = a_id_project a.
Proof.
  unfold count_vote. destruct (a_id a =? v_id_action v); [|auto].
  destruct (v_direction v); simpl; auto.
Qed.

Lemma action_exists_add_vote a v st :
  action_exists a (add_vote v st) = action_exists a st.
Proof.
  unfold action_exists, add_vote; simpl. rewrite existsb_map.
  apply existsb_same. intros x. now rewrite (proj1 (count_vote_ids v x)).
Qed.

Lemma referential_add_member r st : referential st -> referential (add_member r st).
Proof.
  intros [RA RV]. split.
  - intros a I. destruct (RA a I) as [H1 H2]. split; [|exact H2].
    now apply member_exists_add_member.
  - intros v I. destruct (RV v I) as [H1 H2]. split; [|exact H2].
    now apply member_exists_add_member.
Qed.

Lemma referential_add_project r st : referential st -> referential (add_project r st).
Proof.
  intros [RA RV]. split.
  - intros a I. destruct (RA a I) as [H1 H2]. split; [exact H1|].
    now apply project_exists_add_project.
  - intros v I. destruct (RV v I) as [H1 H2]. now split.
Qed.

Lemma referential_add_action r st :
  referential st ->
  member_exists (a_id_member r) st = true ->
  project_exists (a_id_project r) st = true ->
  referential (add_action r st).
Proof.
  intros [RA RV] M P. split.
  - intros a I. simpl in I. apply in_app_iff in I as [I|[<-|[]]].
    + exact (RA a I).
    + now split.
  - intros v I. destruct (RV v I) as [H1 H2]. split; [exact H1|].
    now apply action_exists_add_action.
Qed.

Lemma referential_add_vote r st :
  referential st ->
  member_exists (v_id_member r) st = true ->
  action_exists (v_id_action r) st = true ->
  referential (add_vote r st).
Proof.
  intros [RA RV] M A. split.
  - intros a I. simpl in I. apply in_map_iff in I as (a0 & <- & I).
    destruct (count_vote_ids r a0) as (_ & E1 & E2). rewrite E1, E2.
    exact (RA a0 I).
  - intros v I. rewrite action_exists_add_vote.
    simpl in I. apply in_app_iff in I as [I|[<-|[]]].
    + exact (RV v I).
    + now split.
Qed.

Section Invariants.

Variable crypt : string -> string -> string.
Variable salt : string.
Variable now : datetime.

(** After the member step has passed the member has a row. *)
Lemma _handle_member_provides member password timestamp st s :
  referential st ->
  _handle_member crypt salt now member password timestamp st = (Ok tt, s) ->
  referential s /\ member_exists member s = true.
Proof.
  intros R. rewrite _handle_member_eq.
  destruct (member_exists member st) eqn:E.
  - destruct (authenticates _ _ _ _ _); intros H; [|discriminate].
    injection H as <-. now split.
  - intros H. injection H as <-. split; [now apply referential_add_member|].
    unfold member_exists, add_member; simpl. rewrite existsb_app_one; simpl.
    rewrite Z.eqb_refl. apply orb_true_r.
Qed.

(** X10.  Every operation keeps the references of the store whole: if each
    action names a member and a project that have rows and each vote names
    a member and an action that have rows, the same holds after the
    operation, whatever it was and however it ended.  The code alone sees to
    it, by its member step, its project step and its check of the action. *)
Theorem call_keeps_references (r : request) (st : db) :
  referential st -> referential (snd (call crypt salt now r st)).
Proof.
  intros R.
  assert (KA : forall timestamp member password action project statement authority,
    referential (snd (_define_action crypt salt now timestamp member password action
                                     project statement authority st))).
  { intros. rewrite _define_action_eq; cbv zeta.
    destruct (_handle_member crypt salt now member password (fromtimestamp timestamp) st)
      as [[[]|e] s] eqn:H; [|exact R].
    destruct (_handle_member_provides _ _ _ _ _ R H) as [Rs Ms].
    destruct (project_exists project s) eqn:P.
    - destruct (action_exists action s); [exact Rs|].
      simpl. now apply referential_add_action.
    - destruct authority as [a|]; [|exact Rs].
      destruct (action_exists action s); simpl.
      + now apply referential_add_project.
      + apply referential_add_action; simpl.
        * now apply referential_add_project.
        * exact Ms.
        * unfold project_exists, add_project; simpl. rewrite existsb_app_one; simpl.
          rewrite Z.eqb_refl. apply orb_true_r. }
  assert (KV : forall timestamp member password action vote,
    referential (snd (_vote crypt salt now timestamp member password action vote st))).
  { intros. rewrite _vote_eq; cbv zeta.
    destruct (_handle_member crypt salt now member password (fromtimestamp timestamp) st)
      as [[[]|e] s] eqn:H; [|exact R].
    destruct (_handle_member_provides _ _ _ _ _ R H) as [Rs Ms].
    destruct (action_exists action s) eqn:A; [|exact Rs].
    destruct (vote_exists member action s); [exact Rs|].
    simpl. now apply referential_add_vote. }
  destruct r; unfold call, support, protest, upvote, downvote, actions, projects, votes;
    cbv zeta; try apply KA; try apply KV;
    rewrite ?leader_eq, ?listing_eq, ?trolls_eq.
  - destruct (member_exists _ _); simpl; [exact R | now apply referential_add_member].
  - destruct (_ && _); exact R.
  - destruct (_ && _); exact R.
  - destruct (_ && _); exact R.
  - exact R.
Qed.

(** X11.  Only a [leader] request makes a leader: after any other operation
    the ids that have a row of rank leader are those that had one before. *)
Theorem leaders_only_from_leader (r : request) (st : db) :
  is_leader_request r = false ->
  forall member,
    leader_exists member (snd (call crypt salt now r st)) = leader_exists member st.
Proof.
  intros L member.
  destruct r; simpl in L; try discriminate;
    unfold call, support, protest, upvote, downvote, actions, projects, votes;
    cbv zeta; rewrite ?_define_action_eq, ?_vote_eq, ?listing_eq, ?trolls_eq;
    cbv zeta; rewrite ?_handle_member_eq;
    split_tests; simpl; try reflexivity;
    unfold leader_exists; simpl; rewrite existsb_app_one; simpl;
    now rewrite andb_false_r, orb_false_r.
Qed.

(** X13.  [InvalidMember] and [InvalidRowCount], the two errors the policy
    layer raises itself, never reach the caller of an operation: each
    operation handles them inside.  The only operation that returns [None]
    is [leader], and it does so when it has inserted a member that had no
    row. *)
Theorem exceptions_and_none (r : request) (st : db) :
  fst (call crypt salt now r st) <> Raise InvalidMember /\
  fst (call crypt salt now r st) <> Raise InvalidRowCount /\
  (fst (call crypt salt now r st) = Ok None ->
     exists timestamp password member,
       r = Leader timestamp password member /\ member_exists member st = false).
Proof.
  destruct r; unfold call, support, protest, upvote, downvote, actions, projects, votes;
    cbv zeta;
    rewrite ?leader_eq, ?_define_action_eq, ?_vote_eq, ?listing_eq, ?trolls_eq;
    cbv zeta; rewrite ?_handle_member_eq;
    split_tests; simpl; (split; [|split]); try discriminate.
  intros _. do 3 eexists. split; [reflexivity | assumption].
Qed.

End Invariants.

(** ** The listings *)

Lemma datetime_eqb_eq a b : datetime_eqb a b = true <-> a = b.
Proof.
  unfold datetime_eqb. destruct a, b; simpl.
  rewrite !andb_true_iff, !Z.eqb_eq. split.
  - intros [[[[[-> ->] ->] ->] ->] ->]. reflexivity.
  - intros H. injection H as -> -> -> -> -> ->. auto 10.
Qed.

Lemma value_eqb_eq a b : value_eqb a b = true <-> a = b.
Proof.
  destruct a, b; simpl; try (split; intros H; discriminate).
  - rewrite Z.eqb_eq. split; [now intros -> | now intros [= ->]].
  - rewrite String.eqb_eq. split; [now intros -> | now intros [= ->]].
  - rewrite Bool.eqb_true_iff. split; [now intros -> | now intros [= ->]].
  - rewrite datetime_eqb_eq. split; [now intros -> | now intros [= ->]].
Qed.

Lemma row_eqb_eq a : forall b, row_eqb a b = true <-> a = b.
Proof.
  induction a as [|x a IH]; intros [|y b]; simpl; try (split; intros H; discriminate).
  - tauto.
  - rewrite andb_true_iff, value_eqb_eq, IH.
    split; [now intros [-> ->] | now intros [= -> ->]].
Qed.

Lemma distinct_step_In {K} (acc : list (K * row)) (x : K * row) :
  existsb (fun y => row_eqb (snd y) (snd x)) acc = true <-> In (snd x) (map snd acc).
Proof.
  rewrite existsb_exists, in_map_iff. split.
  - intros (y & I & E). apply row_eqb_eq in E. now exists y.
  - intros (y & E & I). exists y. split; [exact I | now apply row_eqb_eq].
Qed.

Lemma distinct_from_rows {K} (rows : list (K * row)) : forall acc r,
  In r (map snd (fold_left (fun acc x =>
          if existsb (fun y => row_eqb (snd y) (snd x)) acc then acc else acc ++ [x])
        rows acc)) <->
  In r (map snd acc) \/ In r (map snd rows).
Proof.
  induction rows as [|x rows IH]; simpl; intros acc r; [tauto|].
  rewrite IH. destruct (existsb _ acc) eqn:E.
  - apply distinct_step_In in E. split; [tauto|].
    intros [H|[<-|H]]; auto.
  - rewrite map_app, in_app_iff. simpl. tauto.
Qed.

Lemma distinct_from_elements {K} (rows : list (K * row)) : forall acc x,
  In x (fold_left (fun acc x =>
          if existsb (fun y => row_eqb (snd y) (snd x)) acc then acc else acc ++ [x])
        rows acc) ->
  In x acc \/ In x rows.
Proof.
  induction rows as [|y rows IH]; simpl; intros acc x H; [now left|].
  apply IH in H as [H|H]; [|auto].
  destruct (existsb _ acc); [now left|].
  apply in_app_iff in H as [H|[<-|[]]]; auto.
Qed.

Lemma distinct_from_NoDup {K} (rows : list (K * row)) : forall acc,
  NoDup (map snd acc) ->
  NoDup (map snd (fold_left (fun acc x =>
          if existsb (fun y => row_eqb (snd y) (snd x)) acc then acc else acc ++ [x])
        rows acc)).
Proof.
  induction rows as [|x rows IH]; simpl; intros acc N; [exact N|].
  apply IH. destruct (existsb _ acc) eqn:E; [exact N|].
  rewrite map_app. simpl. apply NoDup_app_one; [exact N|].
  intros I. apply distinct_step_In in I. congruence.
Qed.

Lemma insert_sorted_perm {A} (le : A -> A -> bool) (x : A) (l : list A) :
  Permutation (insert_sorted le x l) (x :: l).
Proof.
  induction l as [|y l IH]; simpl; [reflexivity|].
  destruct (le x y); [reflexivity|].
  rewrite IH. apply perm_swap.
Qed.

Lemma order_by_perm {A} (le : A -> A -> bool) (l : list A) :
  Permutation (order_by le l) l.
Proof.
  unfold order_by. induction l as [|x l IH]; simpl; [reflexivity|].
  rewrite insert_sorted_perm. now constructor.
Qed.

Lemma insert_sorted_keys {A} (key : A -> Z) (x : A) (l : list A) :
  StronglySorted (fun a b => key a <= key b) l ->
  StronglySorted (fun a b => key a <= key b)
                 (insert_sorted (fun a b => key a <=? key b) x l).
Proof.
  induction l as [|y l IH]; simpl; intros S.
  - constructor; constructor.
  - inversion S as [|y' l' S' F]; subst.
    destruct (Z.leb_spec (key x) (key y)) as [L|L].
    + constructor; [exact S|]. constructor; [exact L|].
      eapply Forall_impl; [|exact F]. simpl. intros a Ha. lia.
    + constructor; [now apply IH|].
      apply Forall_forall. intros a Ia. apply insert_sorted_In in Ia as [->|Ia]; [lia|].
      rewrite Forall_forall in F. now apply F.
Qed.

Lemma order_by_keys {A} (key : A -> Z) (l : list A) :
  StronglySorted (fun a b => key a <= key b)
                 (order_by (fun a b => key a <=? key b) l).
Proof.
  unfold order_by. induction l as [|x l IH]; simpl; [constructor|].
  now apply insert_sorted_keys.
Qed.

Lemma sorted_rows_by_key (l : list (Z * row)) :
  StronglySorted (fun a b => fst a <= fst b) l ->
  (forall x, In x l -> fst x = row_key (snd x)) ->
  StronglySorted (fun a b => row_key a <= row_key b) (map snd l).
Proof.
  induction l as [|x l IH]; simpl; intros S K; [constructor|].
  inversion S as [|x' l' S' F]; subst.
  constructor; [apply IH; auto|].
  apply Forall_forall. intros r I. apply in_map_iff in I as (y & <- & I).
  rewrite Forall_forall in F. specialize (F y I).
  rewrite <- (K x), <- (K y); auto.
Qed.

(** What the three listings share: the rows of [SELECT DISTINCT ... ORDER BY]
    are the selected rows, each once, in ascending order of the key. *)
Lemma select_distinct_ordered (selected : list (Z * row)) :
  (forall x, In x selected -> fst x = row_key (snd x)) ->
  let rows := map snd (order_by (fun x y => fst x <=? fst y) (distinct selected)) in
  (forall r, In r rows <-> In r (map snd selected)) /\
  NoDup rows /\
  StronglySorted (fun a b => row_key a <= row_key b) rows.
Proof.
  intros K rows. unfold rows, distinct. split; [|split].
  - intros r.
    assert (P := Permutation_map snd
                   (order_by_perm (fun x y : Z * row => fst x <=? fst y)
                      (fold_left (fun acc x =>
                         if existsb (fun y => row_eqb (snd y) (snd x)) acc
                         then acc else acc ++ [x]) selected []))).
    split; intros I.
    + apply (Permutation_in _ P) in I. apply distinct_from_rows in I as [[]|I].
      exact I.
    + eapply Permutation_in; [apply Permutation_sym; exact P|].
      apply distinct_from_rows. now right.
  - apply (Permutation_NoDup (Permutation_sym (Permutation_map snd (order_by_perm _ _)))).
    apply distinct_from_NoDup. constructor.
  - apply sorted_rows_by_key.
    + apply (order_by_keys fst).
    + intros x I. apply order_by_In in I. apply distinct_from_elements in I as [[]|I].
      now apply K.
Qed.

Lemma left_join_inhabited {A} (l : list A) : exists x, In x (left_join l).
Proof.
  destruct l as [|a l]; simpl; [exists None | exists (Some a)]; now left.
Qed.

Lemma left_join_Some {A} (l : list A) (a : A) : In (Some a) (left_join l) <-> In a l.
Proof.
  destruct l as [|b l]; simpl.
  - split; [intros [H|[]]; discriminate | intros []].
  - split.
    + intros [H|H]; [injection H as ->; now left|].
      apply in_map_iff in H as (y & E & I). injection E as ->. now right.
    + intros [->|H]; [now left|]. right. now apply in_map.
Qed.

Lemma projects_filter (authority : option Z) (p : project_row) :
  holds (_generate_condition [("id_leader", option_map VInt authority)])
        (project_columns p) = true <->
  (forall a, authority = Some a -> p_id_leader p = a).
Proof.
  destruct authority as [a|]; cbn.
  - rewrite andb_true_r, Z.eqb_eq. split; [intros E a' [= <-]; exact E | auto].
  - split; [intros _ a H; discriminate | reflexivity].
Qed.

Section Listings.

Variable crypt : string -> string -> string.
Variable now : datetime.

(** X14.  When [projects] succeeds its rows are the pairs (id, leader id) of
    the projects in the store, restricted to those of the given authority
    when one is given, each pair once, in ascending order of project id. *)
Theorem projects_lists_the_projects (member : Z) (password : string)
  (authority : option Z) (st : db) (rows : list row) :
  fst (projects crypt now member password authority st) = Ok (Some (success_with rows)) ->
  (forall r, In r rows <->
     exists p, In p (project_tbl st) /\
               (forall a, authority = Some a -> p_id_leader p = a) /\
               r = [VInt (p_id p); VInt (p_id_leader p)]) /\
  NoDup rows /\
  StronglySorted (fun a b => row_key a <= row_key b) rows.
Proof.
  unfold projects; cbv zeta. rewrite listing_eq.
  destruct (_ && _); simpl; intros H; [|discriminate].
  injection H as <-. unfold projects_query.
  set (c := _generate_condition [("id_leader", option_map VInt authority)]).
  set (selected := map (fun p => (p_id p, [VInt (p_id p); VInt (p_id_leader p)]))
                       (filter (fun p => holds c (project_columns p)) (project_tbl st))).
  destruct (select_distinct_ordered selected) as (I & N & S).
  { intros x Hx. unfold selected in Hx. apply in_map_iff in Hx as (p & <- & _).
    reflexivity. }
  split; [|split; assumption].
  intros r. rewrite I. unfold selected. rewrite map_map. simpl. rewrite in_map_iff.
  split.
  - intros (p & E & Hp). apply filter_In in Hp as [Hp F].
    unfold c in F. pose proof (proj1 (projects_filter _ _) F) as G. exists p. auto.
  - intros (p & Hp & F & E). exists p. split; [auto|].
    apply filter_In. split; [exact Hp | unfold c; now apply (proj2 (projects_filter _ _))].
Qed.

(** X15.  When [votes] succeeds every row starts with the id of a member of
    the store, its rows are in ascending order of member id, every member of
    the store has a row, voter or not, and a member without any vote has the
    row with both counts 0. *)
Theorem votes_lists_every_member (member : Z) (password : string)
  (action project : option Z) (st : db) (rows : list row) :
  fst (votes crypt now member password action project st) = Ok (Some (success_with rows)) ->
  (forall r, In r rows ->
     exists m, In m (member_tbl st) /\ hd_error r = Some (VInt (m_id m))) /\
  (forall m, In m (member_tbl st) ->
     exists r, In r rows /\ hd_error r = Some (VInt (m_id m))) /\
  (forall m, In m (member_tbl st) ->
     (forall v, In v (vote_tbl st) -> v_id_member v <> m_id m) ->
     In [VInt (m_id m); VInt 0; VInt 0] rows) /\
  StronglySorted (fun a b => row_key a <= row_key b) rows.
Proof.
  unfold votes; cbv zeta. rewrite listing_eq.
  destruct (_ && _); simpl; intros H; [|discriminate].
  injection H as <-. unfold votes_query.
  set (c := _generate_condition _).
  set (selected := flat_map (fun m =>
         map (votes_select m)
             (left_join (filter (fun s => m_id m =? fst (fst s)) (votes_subquery c st))))
         (member_tbl st)).
  assert (Sel : forall x, In x selected <->
    exists m s, In m (member_tbl st) /\
      In s (left_join (filter (fun s => m_id m =? fst (fst s)) (votes_subquery c st))) /\
      x = votes_select m s).
  { intros x. unfold selected. rewrite in_flat_map. split.
    - intros (m & Im & Hx). apply in_map_iff in Hx as (s & <- & Is). now exists m, s.
    - intros (m & s & Im & Is & ->). exists m. split; [exact Im | now apply in_map]. }
  assert (Hd : forall m s, fst (votes_select m s) = m_id m /\
                           hd_error (snd (votes_select m s)) = Some (VInt (m_id m))).
  { intros m [[[i u] d]|]; simpl; auto. }
  destruct (select_distinct_ordered selected) as (I & N & S).
  { intros x Hx. apply Sel in Hx as (m & s & _ & _ & ->).
    destruct s as [[[i u] d]|]; reflexivity. }
  split; [|split; [|split]].
  - intros r Hr. apply I in Hr. apply in_map_iff in Hr as (x & <- & Hx).
    apply Sel in Hx as (m & s & Im & _ & ->). exists m. split; [exact Im | apply Hd].
  - intros m Im.
    destruct (left_join_inhabited
                (filter (fun s => m_id m =? fst (fst s)) (votes_subquery c st))) as (s & Is).
    exists (snd (votes_select m s)). split; [|apply Hd].
    apply I. apply in_map. apply Sel. now exists m, s.
  - intros m Im NoVote. apply I.
    change [VInt (m_id m); VInt 0; VInt 0] with (snd (votes_select m None)).
    apply in_map. apply Sel. exists m, None. split; [exact Im|]. split; [|reflexivity].
    assert (E : filter (fun s => m_id m =? fst (fst s)) (votes_subquery c st) = []).
    { destruct (filter _ _) as [|s l] eqn:F; [reflexivity|]. exfalso.
      assert (Is : In s (filter (fun s => m_id m =? fst (fst s)) (votes_subquery c st)))
        by (rewrite F; now left).
      apply filter_In in Is as [Is T]. apply Z.eqb_eq in T.
      unfold votes_subquery in Is. apply in_map_iff in Is as ([[v a] p] & <- & Ij).
      apply filter_In in Ij as [Ij _]. unfold votes_join in Ij.
      apply in_flat_map in Ij as (v' & Iv & Ij).
      apply in_flat_map in Ij as (oa & _ & Ij).
      destruct oa as [a'|]; [|elim Ij].
      apply in_map_iff in Ij as (p' & E & _). injection E as -> -> ->.
      simpl in T. now apply (NoVote v Iv). }
    rewrite E. now left.
  - exact S.
Qed.

Lemma actions_query_In (c : condition) (st : db) (r : row) :
  In r (actions_query c st) <->
  exists a p, In a (action_tbl st) /\ In p (project_tbl st) /\
              a_id_project a = p_id p /\
              holds c (actions_join_columns (a, None, p)) = true /\
              r = snd (actions_select (a, None, p)).
Proof.
  unfold actions_query.
  set (selected := map actions_select
         (filter (fun j => holds c (actions_join_columns j)) (actions_join st))).
  destruct (select_distinct_ordered selected) as (I & _ & _).
  { intros x Hx. unfold selected in Hx. apply in_map_iff in Hx as ([[a ov] p] & <- & _).
    reflexivity. }
  rewrite I. unfold selected. rewrite map_map, in_map_iff. split.
  - intros ([[a ov] p] & <- & Hj). apply filter_In in Hj as [Hj F].
    unfold actions_join in Hj. apply in_flat_map in Hj as (a' & Ia & Hj).
    apply in_flat_map in Hj as (ov' & _ & Hj).
    apply in_map_iff in Hj as (p' & E & Ip). injection E as -> -> ->.
    apply filter_In in Ip as [Ip T]. apply Z.eqb_eq in T.
    exists a, p. auto.
  - intros (a & p & Ia & Ip & E & F & ->).
    destruct (left_join_inhabited
                (filter (fun v => a_id a =? v_id_action v) (vote_tbl st))) as (ov & Iov).
    exists (a, ov, p). split; [reflexivity|].
    apply filter_In. split; [|exact F].
    unfold actions_join. apply in_flat_map. exists a. split; [exact Ia|].
    apply in_flat_map. exists ov. split; [exact Iov|].
    apply in_map. apply filter_In. split; [exact Ip | now apply Z.eqb_eq].
Qed.

(** X16.  When [actions] succeeds its rows are, for each action of the store
    whose project has a row, the action id, its type, the project id, the
    leader id of the project and the two counters, restricted by the type,
    the project and the authority when these are given; each row comes once,
    in ascending order of action id.  An action whose project has no row is
    not listed. *)
Theorem actions_lists_the_actions (member : Z) (password : string)
  (action_type : option string) (project authority : option Z)
  (st : db) (rows : list row) :
  fst (actions crypt now member password action_type project authority st)
    = Ok (Some (success_with rows)) ->
  (forall r, In r rows <->
     exists a p, In a (action_tbl st) /\ In p (project_tbl st) /\
       a_id_project a = p_id p /\
       (forall t, action_type = Some t -> action_type_name (a_type a) = t) /\
       (forall i, project = Some i -> p_id p = i) /\
       (forall l, authority = Some l -> p_id_leader p = l) /\
       r = [VInt (a_id a); VStr (action_type_name (a_type a)); VInt (a_id_project a);
            VInt (p_id_leader p); VInt (a_upvotes a); VInt (a_downvotes a)]) /\
  NoDup rows /\
  StronglySorted (fun a b => row_key a <= row_key b) rows.
Proof.
  unfold actions; cbv zeta. rewrite listing_eq.
  destruct (_ && _); simpl; intros H; [|discriminate].
  injection H as <-.
  set (c := _generate_condition _).
  assert (F : forall a p, holds c (actions_join_columns (a, None, p)) = true <->
    (forall t, action_type = Some t -> action_type_name (a_type a) = t) /\
    (forall i, project = Some i -> p_id p = i) /\
    (forall l, authority = Some l -> p_id_leader p = l)).
  { intros a p. unfold c.
    destruct action_type as [t|], project as [i|], authority as [l|]; cbn;
      rewrite ?andb_true_r, ?andb_true_iff, ?Z.eqb_eq, ?String.eqb_eq;
      (split; [intros H; repeat split; intros x Hx; try discriminate;
               injection Hx as <-; tauto
              |intros (H1 & H2 & H3); repeat split; auto]). }
  split; [|split].
  - intros r. rewrite actions_query_In. split.
    + intros (a & p & Ia & Ip & E & Hc & ->). apply F in Hc as (H1 & H2 & H3).
      exists a, p. auto 10.
    + intros (a & p & Ia & Ip & E & H1 & H2 & H3 & ->).
      exists a, p. repeat split; auto. apply F. auto.
  - unfold actions_query.
    apply (select_distinct_ordered (map actions_select
             (filter (fun j => holds c (actions_join_columns j)) (actions_join st)))).
    intros x Hx. apply in_map_iff in Hx as ([[a ov] p] & <- & _). reflexivity.
  - unfold actions_query.
    apply (select_distinct_ordered (map actions_select
             (filter (fun j => holds c (actions_join_columns j)) (actions_join st)))).
    intros x Hx. apply in_map_iff in Hx as ([[a ov] p] & <- & _). reflexivity.
Qed.

End Listings.

(** ** From a request to the listings *)

Lemma keeps_listed_refl st : keeps_listed st st.
Proof.
  split; [auto|]. intros a I. exists a. repeat split; auto; lia.
Qed.

Lemma keeps_listed_trans s1 s2 s3 :
  keeps_listed s1 s2 -> keeps_listed s2 s3 -> keeps_listed s1 s3.
Proof.
  intros [P1 A1] [P2 A2]. split; [auto|].
  intros a I. destruct (A1 a I) as (a1 & I1 & E1 & T1 & J1 & U1 & D1).
  destruct (A2 a1 I1) as (a2 & I2 & E2 & T2 & J2 & U2 & D2).
  exists a2. repeat split; try congruence; lia.
Qed.

Lemma keeps_listed_add_member r st : keeps_listed st (add_member r st).
Proof.
  split; [auto|]. intros a I. exists a. repeat split; auto; lia.
Qed.

Lemma keeps_listed_add_project r st : keeps_listed st (add_project r st).
Proof.
  split.
  - intros p I. simpl. apply in_or_app. now left.
  - intros a I. exists a. repeat split; auto; lia.
Qed.

Lemma keeps_listed_add_action r st : keeps_listed st (add_action r st).
Proof.
  split; [auto|].
  intros a I. exists a. split; [simpl; apply in_or_app; now left|].
  repeat split; lia.
Qed.

Lemma keeps_listed_add_vote r st : keeps_listed st (add_vote r st).
Proof.
  split; [auto|].
  intros a I. exists (count_vote r a). split; [simpl; now apply in_map|].
  unfold count_vote. destruct (a_id a =? v_id_action r); [|repeat split; lia].
  destruct (v_direction r); simpl; repeat split; lia.
Qed.

Lemma call_keeps_listed crypt salt now (r : request) (st : db) :
  keeps_listed st (snd (call crypt salt now r st)).
Proof.
  destruct r; unfold call, support, protest, upvote, downvote, actions, projects, votes;
    cbv zeta;
    rewrite ?leader_eq, ?_define_action_eq, ?_vote_eq, ?listing_eq, ?trolls_eq;
    cbv zeta; rewrite ?_handle_member_eq;
    split_tests; simpl;
    repeat first
      [ apply keeps_listed_refl
      | eapply keeps_listed_trans;
        [|first [ apply keeps_listed_add_action | apply keeps_listed_add_project
                | apply keeps_listed_add_vote | apply keeps_listed_add_member ]] ].
Qed.

Lemma after_calls_keeps_listed crypt calls : forall st,
  keeps_listed st (after_calls crypt calls st).
Proof.
  unfold after_calls.
  induction calls as [|[[salt now] r] calls IH]; simpl; intros st.
  - apply keeps_listed_refl.
  - eapply keeps_listed_trans; [apply call_keeps_listed | apply IH].
Qed.

Section RoundTrips.

Variable crypt : string -> string -> string.

(** An action and its project are in the store: a successful listing
    without filters has the action's row. *)
Lemma listed_when_stored (a : action_row) (p : project_row) (s : db)
  now' member' password' rows :
  In a (action_tbl s) -> In p (project_tbl s) -> a_id_project a = p_id p ->
  fst (actions crypt now' member' password' None None None s)
    = Ok (Some (success_with rows)) ->
  In [VInt (a_id a); VStr (action_type_name (a_type a)); VInt (a_id_project a);
      VInt (p_id_leader p); VInt (a_upvotes a); VInt (a_downvotes a)] rows.
Proof.
  intros Ia Ip E. unfold actions; cbv zeta. rewrite listing_eq.
  destruct (_ && _); simpl; intros H; [|discriminate]. injection H as <-.
  apply actions_query_In. exists a, p. repeat split; auto.
Qed.

(** What a successful support or protest leaves in the store. *)
Lemma recorded_action_stored (salt : string) (now : datetime)
  (statement : action_type) (timestamp member : Z) (password : string)
  (action project : Z) (authority : option Z) (st : db) :
  fst (call crypt salt now
         (action_request statement timestamp member password action project authority) st)
    = Ok (Some success) ->
  let st' := snd (call crypt salt now
         (action_request statement timestamp member password action project authority) st) in
  In (mkAction action project member statement (fromtimestamp timestamp) 0 0)
     (action_tbl st') /\
  exists p, In p (project_tbl st') /\ p_id p = project /\
            (project_exists project st = false -> authority = Some (p_id_leader p)).
Proof.
  rewrite action_request_eq, _define_action_eq; cbv zeta.
  set (t := fromtimestamp timestamp).
  set (new := mkAction action project member statement t 0 0).
  assert (K : forall s, project_tbl s = project_tbl st ->
    let after :=
      match project_exists project s, authority with
      | true, _ =>
          if action_exists action s then (@Raise (option response) IntegrityError, s)
          else (Ok (Some success), add_action new s)
      | false, Some a =>
          if action_exists action s
          then (Raise IntegrityError, add_project (mkProject project a t) s)
          else (Ok (Some success), add_action new (add_project (mkProject project a t) s))
      | false, None => (Ok (Some failure), s)
      end in
    fst after = Ok (Some success) ->
    In new (action_tbl (snd after)) /\
    exists p, In p (project_tbl (snd after)) /\ p_id p = project /\
              (project_exists project st = false -> authority = Some (p_id_leader p))).
  { intros s S.
    assert (P : project_exists project s = project_exists project st)
      by (unfold project_exists; now rewrite S).
    cbv zeta. destruct (project_exists project s) eqn:E.
    - destruct (action_exists action s); simpl; intros H; [discriminate|].
      split; [apply in_or_app; right; now left|].
      apply existsb_exists in E as (p & Ip & Ep). apply Z.eqb_eq in Ep.
      exists p. split; [exact Ip|]. split; [exact Ep | intros F; congruence].
    - destruct authority as [a|]; [|simpl; intros H; discriminate].
      destruct (action_exists action s); simpl; intros H; [discriminate|].
      split; [apply in_or_app; right; now left|].
      exists (mkProject project a t). split; [apply in_or_app; right; now left|].
      split; reflexivity. }
  rewrite _handle_member_eq.
  destruct (member_exists member st); [destruct (authenticates _ _ _ _ _)|].
  - now apply K.
  - simpl. intros H; discriminate.
  - now apply K.
Qed.

(** X17.  An action recorded by a successful support or protest is listed.
    A successful [actions] call without filters made right after has the row
    of the action with its type, its project, the leader id of the project
    and both counters 0.  After any further calls such a listing still has
    a row of the action with the same type, project and leader id, and with
    counters that are not negative.  When the request has created the
    project, the leader id is the authority it gave. *)
Theorem recorded_action_is_listed (salt : string) (now : datetime)
  (statement : action_type) (timestamp member : Z) (password : string)
  (action project : Z) (authority : option Z) (st : db) :
  fst (call crypt salt now
         (action_request statement timestamp member password action project authority) st)
    = Ok (Some success) ->
  let st' := snd (call crypt salt now
         (action_request statement timestamp member password action project authority) st) in
  exists l,
    (project_exists project st = false -> authority = Some l) /\
    (forall now' member' password' rows,
       fst (actions crypt now' member' password' None None None st')
         = Ok (Some (success_with rows)) ->
       In [VInt action; VStr (action_type_name statement); VInt project; VInt l;
           VInt 0; VInt 0] rows) /\
    (forall calls now' member' password' rows,
       fst (actions crypt now' member' password' None None None
              (after_calls crypt calls st'))
         = Ok (Some (success_with rows)) ->
       exists upvotes downvotes,
         0 <= upvotes /\ 0 <= downvotes /\
         In [VInt action; VStr (action_type_name statement); VInt project; VInt l;
             VInt upvotes; VInt downvotes] rows).
Proof.
  intros H st'.
  destruct (recorded_action_stored salt now statement timestamp member password
              action project authority st H) as (Ia & p & Ip & Ep & Au).
  fold st' in Ia, Ip.
  exists (p_id_leader p). split; [exact Au|]. split.
  - intros now' member' password' rows L.
    apply (listed_when_stored _ p st' now' member' password' rows Ia Ip) in L;
      [|simpl; now rewrite Ep].
    simpl in L. exact L.
  - intros calls now' member' password' rows L.
    destruct (after_calls_keeps_listed crypt calls st') as [KP KA].
    destruct (KA _ Ia) as (a' & Ia' & E1 & E2 & E3 & U & D). simpl in E1, E2, E3, U, D.
    apply (listed_when_stored a' p _ now' member' password' rows Ia' (KP p Ip)) in L;
      [|now rewrite E3, Ep].
    rewrite E1, E2, E3 in L.
    exists (a_upvotes a'), (a_downvotes a'). auto.
Qed.

End RoundTrips.

(** ** The rows of [trolls] *)

Lemma add_to_groups_members r gs g x :
  In g (add_to_groups r gs) -> In x (fst g :: snd g) ->
  x = r \/ exists g0, In g0 gs /\ In x (fst g0 :: snd g0).
Proof.
  induction gs as [|[h t] gs IH]; simpl.
  - intros [<-|[]]; simpl. intros [->|[]]. now left.
  - destruct (same_group r h); simpl.
    + intros [<-|H]; simpl.
      * intros [E|I].
        -- right. exists (h, t). split; [now left | now left].
        -- apply in_app_iff in I as [I|[->|[]]]; [|now left].
           right. exists (h, t). split; [now left | now right].
      * intros I. right. exists g. split; [now right | exact I].
    + intros [<-|H]; simpl.
      * intros I. right. exists (h, t). split; [now left | exact I].
      * intros I. destruct (IH H I) as [->|(g0 & I0 & Ix)]; [now left|].
        right. exists g0. split; [now right | exact Ix].
Qed.

Lemma fold_groups_members rows : forall gs g x,
  In g (fold_left (fun gs r => add_to_groups r gs) rows gs) ->
  In x (fst g :: snd g) ->
  In x rows \/ exists g0, In g0 gs /\ In x (fst g0 :: snd g0).
Proof.
  induction rows as [|r rows IH]; simpl; intros gs g x H I.
  - right. now exists g.
  - destruct (IH _ _ _ H I) as [Hx|(g1 & I1 & Ix)]; [left; now right|].
    destruct (add_to_groups_members _ _ _ _ I1 Ix) as [->|(g0 & I0 & Ix0)].
    + left. now left.
    + right. now exists g0.
Qed.

Lemma sum_lt {A} (f g : A -> Z) (l : list A) :
  l <> [] -> (forall x, In x l -> f x < g x) -> sum (map f l) < sum (map g l).
Proof.
  induction l as [|x l IH]; [intros H; now elim H|].
  intros _ H. simpl. assert (Hx := H x (or_introl eq_refl)).
  destruct l as [|y l]; [simpl; lia|].
  assert (sum (map f (y :: l)) < sum (map g (y :: l))).
  { apply IH; [discriminate|]. intros z Iz. apply H. now right. }
  lia.
Qed.

Lemma same_group_sym x y : same_group x y = same_group y x.
Proof.
  unfold same_group.
  now rewrite (Z.eqb_sym (m_id (fst x))), (Z.eqb_sym (a_upvotes (snd x))),
              (Z.eqb_sym (a_downvotes (snd x))).
Qed.

Lemma same_group_iff x y :
  same_group x y = true <->
  m_id (fst x) = m_id (fst y) /\ a_upvotes (snd x) = a_upvotes (snd y) /\
  a_downvotes (snd x) = a_downvotes (snd y).
Proof.
  unfold same_group. rewrite !andb_true_iff, !Z.eqb_eq. tauto.
Qed.

Lemma same_group_class x y z :
  same_group x y = true -> same_group x z = same_group y z.
Proof.
  intros H. apply same_group_iff in H as (H1 & H2 & H3).
  unfold same_group. now rewrite H1, H2, H3.
Qed.

Lemma filter_snoc {A} (f : A -> bool) (l : list A) (x : A) :
  filter f (l ++ [x]) = filter f l ++ (if f x then [x] else []).
Proof. now rewrite filter_app. Qed.

Lemma add_to_groups_classes r P : forall gs,
  ForallOrdPairs (fun g1 g2 => same_group (fst g1) (fst g2) = false) gs ->
  (forall g, In g gs -> fst g :: snd g = filter (fun x => same_group x (fst g)) P) ->
  ((forall g, In g gs -> same_group r (fst g) = false) ->
   filter (fun x => same_group x r) P = []) ->
  forall g, In g (add_to_groups r gs) ->
    fst g :: snd g = filter (fun x => same_group x (fst g)) (P ++ [r]).
Proof.
  induction gs as [|[h t] gs IH]; simpl; intros D A N g I.
  - destruct I as [<-|[]]. simpl. rewrite filter_snoc, same_group_refl.
    rewrite N; [reflexivity | intros g []].
  - inversion D as [|g0 l0 Dh Dt]; subst.
    destruct (same_group r h) eqn:E; simpl in I.
    + destruct I as [<-|I]; simpl.
      * rewrite filter_snoc, E. specialize (A (h, t) (or_introl eq_refl)). simpl in A.
        now rewrite <- A, <- app_comm_cons.
      * rewrite filter_snoc.
        rewrite Forall_forall in Dh. specialize (Dh g I). simpl in Dh.
        rewrite (same_group_class r h (fst g) E), Dh, app_nil_r.
        apply A. now right.
    + destruct I as [<-|I]; simpl.
      * rewrite filter_snoc, E, app_nil_r. apply (A (h, t)). now left.
      * apply IH; auto.
        intros M. apply N. intros g' [<-|I']; [exact E | now apply M].
Qed.

Lemma add_to_groups_distinct r : forall gs,
  ForallOrdPairs (fun g1 g2 => same_group (fst g1) (fst g2) = false) gs ->
  ForallOrdPairs (fun g1 g2 => same_group (fst g1) (fst g2) = false)
                 (add_to_groups r gs).
Proof.
  induction gs as [|[h t] gs IH]; simpl; intros D.
  - constructor; constructor.
  - inversion D as [|g0 l0 Dh Dt]; subst.
    destruct (same_group r h) eqn:E.
    + constructor; [exact Dh | exact Dt].
    + constructor; [|now apply IH].
      apply Forall_forall. intros g I. simpl.
      destruct (add_to_groups_heads _ _ _ I) as [F|(g0 & I0 & F)].
      * rewrite F, same_group_sym. exact E.
      * rewrite <- F. rewrite Forall_forall in Dh. apply (Dh g0 I0).
Qed.

Lemma add_to_groups_grouped r gs P :
  grouped gs P -> grouped (add_to_groups r gs) (P ++ [r]).
Proof.
  intros (A & B & D). split; [|split].
  - apply add_to_groups_classes; auto.
    intros M. apply filter_nil_iff. intros x Ix.
    destruct (B x Ix) as (g & Ig & S).
    rewrite (same_group_class x (fst g) r S), same_group_sym. now apply M.
  - intros x Ix. destruct (add_to_groups_covers r gs) as [(g1 & I1 & S1) C2].
    apply in_app_iff in Ix as [Ix|[<-|[]]].
    + destruct (B x Ix) as (g & Ig & S). destruct (C2 g Ig) as (g' & Ig' & E).
      exists g'. split; [exact Ig' | now rewrite E].
    + now exists g1.
  - now apply add_to_groups_distinct.
Qed.

Lemma fold_groups_grouped rows : forall gs P,
  grouped gs P ->
  grouped (fold_left (fun gs r => add_to_groups r gs) rows gs) (P ++ rows).
Proof.
  induction rows as [|r rows IH]; simpl; intros gs P G.
  - now rewrite app_nil_r.
  - replace (P ++ r :: rows) with ((P ++ [r]) ++ rows)
      by (now rewrite <- app_assoc).
    apply IH. now apply add_to_groups_grouped.
Qed.

Lemma group_by_grouped rows : grouped (group_by rows) rows.
Proof.
  unfold group_by. apply (fold_groups_grouped rows [] []).
  split; [intros g [] | split; [intros x [] | constructor]].
Qed.

Lemma sum_constant {A} (f : A -> Z) (c : Z) (l : list A) :
  (forall x, In x l -> f x = c) -> sum (map f l) = Z.of_nat (List.length l) * c.
Proof.
  induction l as [|x l IH]; intros H; [reflexivity|].
  change (sum (map f (x :: l))) with (f x + sum (map f l)).
  rewrite IH, (H x); [|now left | intros y I; apply H; now right].
  change (List.length (x :: l)) with (S (List.length l)). lia.
Qed.

Lemma filter_filter_implied {A} (f g : A -> bool) (l : list A) :
  (forall x, f x = true -> g x = true) -> filter f (filter g l) = filter f l.
Proof.
  intros H. induction l as [|x l IH]; simpl; [reflexivity|].
  destruct (g x) eqn:G; simpl.
  - now rewrite IH.
  - destruct (f x) eqn:F; [rewrite (H x F) in G; discriminate | exact IH].
Qed.

Lemma length_filter_pairs (f : member_row * action_row -> bool) (m : member_row)
  (l : list action_row) :
  List.length (filter f (map (pair m) l)) =
  List.length (filter (fun a => f (m, a)) l).
Proof.
  induction l as [|a l IH]; simpl; [reflexivity|].
  destruct (f (m, a)); simpl; now rewrite IH.
Qed.

Lemma length_filter_filter {A} (f g : A -> bool) (l : list A) :
  List.length (filter f (filter g l)) = List.length (filter (fun x => g x && f x) l).
Proof.
  induction l as [|a l IH]; simpl; [reflexivity|].
  destruct (g a); simpl; [destruct (f a); simpl; now rewrite IH | exact IH].
Qed.

(** Under the key on [member.id], the rows of the join in the class of a row
    are the member's actions with the counters of the row. *)
Lemma class_size_by_actions (m : member_row) (a : action_row) (st : db) :
  NoDup (map m_id (member_tbl st)) -> In m (member_tbl st) ->
  List.length (filter (fun x => same_group x (m, a)) (trolls_join st)) =
  List.length (filter (fun a' => (a_id_member a' =? m_id m) &&
                                 (a_upvotes a' =? a_upvotes a) &&
                                 (a_downvotes a' =? a_downvotes a)) (action_tbl st)).
Proof.
  unfold trolls_join.
  set (K := List.length (filter _ (action_tbl st))).
  assert (One : forall m', List.length (filter (fun x => same_group x (m, a))
              (map (pair m') (filter (fun a' => m_id m' =? a_id_member a') (action_tbl st))))
            = if m_id m' =? m_id m then K else 0%nat).
  { intros m'. unfold K. clear K.
    rewrite length_filter_pairs, length_filter_filter.
    destruct (Z.eqb_spec (m_id m') (m_id m)) as [E|E].
    - f_equal. apply filter_ext. intros x. unfold same_group. simpl.
      rewrite E, Z.eqb_refl, (Z.eqb_sym (m_id m) (a_id_member x)). simpl.
      now rewrite andb_assoc.
    - rewrite (filter_ext _ (fun _ => false)).
      + now induction (action_tbl st).
      + intros x. unfold same_group. simpl.
        destruct (Z.eqb_spec (m_id m') (m_id m)); [congruence|].
        simpl. apply andb_false_r. }
  intros N I.
  assert (G : forall l, NoDup (map m_id l) ->
    List.length (filter (fun x => same_group x (m, a))
      (flat_map (fun m' => map (pair m')
         (filter (fun a' => m_id m' =? a_id_member a') (action_tbl st))) l)) =
    if existsb (fun m' => m_id m' =? m_id m) l then K else 0%nat).
  { induction l as [|m' l IH]; simpl; intros Nl; [reflexivity|].
    inversion Nl as [|i ids Hn Nl']; subst.
    rewrite filter_app, length_app, One, (IH Nl').
    destruct (Z.eqb_spec (m_id m') (m_id m)) as [E|E]; simpl; [|reflexivity].
    destruct (existsb _ l) eqn:X; [|lia].
    apply existsb_exists in X as (y & Iy & Ey). apply Z.eqb_eq in Ey.
    elim Hn. rewrite E, <- Ey. now apply in_map. }
  rewrite (G _ N).
  assert (X : existsb (fun m' => m_id m' =? m_id m) (member_tbl st) = true).
  { apply existsb_exists. exists m. split; [exact I | apply Z.eqb_refl]. }
  now rewrite X.
Qed.

(** X18.  When [trolls] succeeds on a store that keeps the key on
    [member.id], a member id starts one of its rows exactly when the member
    has a row and has authored some action that by itself has more downvotes
    than upvotes.  Each row belongs to such a member and such an action: it
    holds the member id, then the upvotes and the downvotes of the action,
    each multiplied by the number of the member's actions that have exactly
    these two counters, then the flag that tells whether the year of the
    timestamp is at most the activity year of the member. *)
Theorem trolls_rows (timestamp : Z) (st : db) (rows : list row) :
  NoDup (map m_id (member_tbl st)) ->
  fst (trolls timestamp st) = Ok (Some (success_with rows)) ->
  (forall member,
     (exists r, In r rows /\ hd_error r = Some (VInt member)) <->
     (exists m a, In m (member_tbl st) /\ In a (action_tbl st) /\ m_id m = member /\
                  a_id_member a = member /\ a_upvotes a < a_downvotes a)) /\
  (forall r, In r rows ->
     exists m a n,
       In m (member_tbl st) /\ In a (action_tbl st) /\ a_id_member a = m_id m /\
       a_upvotes a < a_downvotes a /\
       n = Z.of_nat (List.length
             (filter (fun a' => (a_id_member a' =? m_id m) &&
                                (a_upvotes a' =? a_upvotes a) &&
                                (a_downvotes a' =? a_downvotes a)) (action_tbl st))) /\
       r = [VInt (m_id m); VInt (n * a_upvotes a); VInt (n * a_downvotes a);
            VBool (year (fromtimestamp timestamp) <=? year (m_activity_date m))]).
Proof.
  intros N. rewrite trolls_eq. simpl. intros H. injection H as <-.
  split; [intros member; apply trolls_query_members|].
  intros r I. unfold trolls_query in I.
  apply in_map_iff in I as ([[m a] t] & <- & I). apply order_by_In in I.
  set (J := filter (fun j => 0 <? a_downvotes (snd j) - a_upvotes (snd j)) (trolls_join st))
    in I.
  destruct (group_by_grouped J) as (A & _ & _).
  specialize (A _ I). simpl in A.
  assert (Ih : In (m, a) J).
  { apply fold_groups_heads in I as [I|(g0 & [] & _)]. exact I. }
  unfold J in Ih. apply filter_In in Ih as [Ij T]. simpl in T. apply Z.ltb_lt in T.
  apply trolls_join_In in Ij as (Im & Ia & Ea).
  assert (L : (m, a) :: t = filter (fun x => same_group x (m, a)) (trolls_join st)).
  { rewrite A. unfold J. apply filter_filter_implied.
    intros x S. apply same_group_iff in S as (_ & S1 & S2). simpl in S1, S2.
    apply Z.ltb_lt. lia. }
  assert (Same : forall x, In x ((m, a) :: t) ->
            a_upvotes (snd x) = a_upvotes a /\ a_downvotes (snd x) = a_downvotes a).
  { intros x Ix. rewrite L in Ix. apply filter_In in Ix as [_ S].
    apply same_group_iff in S as (_ & S1 & S2). auto. }
  exists m, a, (Z.of_nat (List.length ((m, a) :: t))).
  repeat split; auto; try lia.
  - rewrite L. f_equal. now apply class_size_by_actions.
  - unfold trolls_select.
    rewrite (sum_constant (fun x => a_upvotes (snd x)) (a_upvotes a));
      [|intros x Ix; now apply Same].
    rewrite (sum_constant (fun x => a_downvotes (snd x)) (a_downvotes a));
      [|intros x Ix; now apply Same].
    simpl fst.
    replace (year (fromtimestamp timestamp) - year (m_activity_date m) <=? 0)
      with (year (fromtimestamp timestamp) <=? year (m_activity_date m)); [reflexivity|].
    destruct (Z.leb_spec (year (fromtimestamp timestamp)) (year (m_activity_date m)));
      destruct (Z.leb_spec (year (fromtimestamp timestamp) - year (m_activity_date m)) 0);
      auto; lia.
Qed.

(** ** The batch runner *)

Lemma fold_left_app_concat {A} (rest : list (list A)) : forall x,
  fold_left (fun x y => x ++ y) rest x = x ++ List.concat rest.
Proof.
  induction rest as [|y rest IH]; simpl; intros x.
  - now rewrite app_nil_r.
  - rewrite IH. now rewrite app_assoc.
Qed.

(** X19.  [flatten] and [name_kwargs_map] raise on an empty list (here
    [None]); on any other list they give the items of all the objects, in
    the order of the objects and of their items.  A list of empty objects
    gives the empty list of calls. *)
Theorem name_kwargs_map_spec {K V} (jsons : list (list (K * V))) :
  (name_kwargs_map jsons = None <-> jsons = []) /\
  (jsons <> [] -> name_kwargs_map jsons = Some (List.concat jsons)) /\
  (flatten jsons = name_kwargs_map jsons).
Proof.
  unfold name_kwargs_map. rewrite map_id.
  destruct jsons as [|x rest]; simpl.
  - repeat split; try reflexivity; intros H; now elim H.
  - rewrite fold_left_app_concat. repeat split; try reflexivity; intros H; discriminate.
Qed.

(** X21.  The calls of a batch run in order on the store the earlier ones
    left.  When a call raises, the batch ends with that exception on the
    spot: the store is the one at that moment, the outputs of the earlier
    calls are lost, and the calls after it are not made, whatever they
    are. *)
Theorem run_batch_stops_at_first_exception (crypt : string -> string -> string)
  (pre post : list (string * datetime * request)) (c : string * datetime * request)
  (st st1 st2 : db) (outs : list (option response)) (e : exn) :
  run_batch crypt pre st = (Ok outs, st1) ->
  run_call crypt c st1 = (Raise e, st2) ->
  run_batch crypt (pre ++ c :: post) st = (Raise e, st2).
Proof.
  revert st outs. induction pre as [|p pre IH]; simpl; intros st outs H1 H2.
  - injection H1 as _ <-. unfold bind. now rewrite H2.
  - unfold bind in *.
    destruct (run_call crypt p st) as [[o|e'] s]; [|discriminate].
    destruct (run_batch crypt pre s) as [[os|e'] s'] eqn:R; [|discriminate].
    injection H1 as _ <-.
    now rewrite (IH s os R H2).
Qed.

(** ** The further properties on the stores of the examples *)

Lemma _row_existence_check_spec_witness :
  (exists row, In row (rows_of T_member st_voted) /\
               Forall (kwarg_holds row)
                      [("id", Some (VInt 1)); ("rank", Some (VStr "leader"))]) /\
  _row_existence_check T_member
    [("id", Some (VInt 1)); ("rank", Some (VStr "leader"))] st_voted = (Ok tt, st_voted) /\
  _row_existence_check T_vote [("id_member", None)] empty_db =
    (Raise InvalidRowCount, empty_db).
Proof.
  assert (E : exists row, In row (rows_of T_member st_voted) /\
               Forall (kwarg_holds row)
                      [("id", Some (VInt 1)); ("rank", Some (VStr "leader"))]).
  { eexists. split; [left; reflexivity|].
    repeat constructor; eexists; split; reflexivity. }
  split; [exact E|]. split.
  - apply (proj1 (_row_existence_check_spec T_member
                    [("id", Some (VInt 1)); ("rank", Some (VStr "leader"))] st_voted) E).
  - apply (proj2 (proj2 (_row_existence_check_spec T_vote [("id_member", None)] empty_db))).
    reflexivity.
Defined.



Lemma leader_then_listing_witness :
  member_exists 1 empty_db = false /\
  demo_crypt "pw" (demo_crypt "pw" demo_salt) = demo_crypt "pw" demo_salt /\
  year (fromtimestamp t2019) = year demo_now /\
  returns_success (fst (call demo_crypt "bf99" demo_now (Projects 1 "pw" None) st_leader)) /\
  snd (call demo_crypt "bf99" demo_now (Projects 1 "pw" None) st_leader) = st_leader.
Proof.
  split; [reflexivity|]. split; [reflexivity|]. split; [reflexivity|].
  apply (proj1 (leader_then_listing demo_crypt demo_salt "bf99" demo_now
                  (Projects 1 "pw" None) 1 "pw" t2019 empty_db eq_refl eq_refl));
    reflexivity.
Defined.

Lemma failed_request_keeps_new_member_witness :
  member_exists 5 st_leader = false /\
  action_exists 99 st_leader = false /\
  demo_call (Upvote t2019 5 "q" 99) st_leader =
  (Ok (Some failure),
   add_member (mkMember 5 (demo_crypt "q" demo_salt) regular (fromtimestamp t2019))
              st_leader).
Proof.
  split; [reflexivity|]. split; [reflexivity|].
  apply (proj1 (failed_request_keeps_new_member demo_crypt demo_salt demo_now
                  t2019 5 "q" 99 77 st_leader eq_refl) eq_refl up).
Defined.

Lemma call_keeps_references_witness :
  referential st_voted /\
  referential (snd (demo_call (Downvote t2019 4 "z" 10) st_voted)).
Proof.
  assert (R : referential st_voted).
  { split; intros x I; vm_compute in I;
      destruct I as [<-|[]]; split; reflexivity. }
  split; [exact R|].
  apply (call_keeps_references demo_crypt demo_salt demo_now
           (Downvote t2019 4 "z" 10) st_voted R).
Defined.

Lemma leaders_only_from_leader_witness :
  is_leader_request (Support t2019 2 "x" 10 100 (Some 2)) = false /\
  leader_exists 2 (snd (demo_call (Support t2019 2 "x" 10 100 (Some 2)) st_leader)) =
  leader_exists 2 st_leader.
Proof.
  split; [reflexivity|].
  apply (leaders_only_from_leader demo_crypt demo_salt demo_now
           (Support t2019 2 "x" 10 100 (Some 2)) st_leader eq_refl 2).
Defined.

Lemma projects_lists_the_projects_witness :
  fst (projects demo_crypt demo_now 1 "pw" (Some 1) st_voted) =
    Ok (Some (success_with [[VInt 100; VInt 1]])) /\
  NoDup [[VInt 100; VInt 1]] /\
  StronglySorted (fun a b => row_key a <= row_key b) [[VInt 100; VInt 1]].
Proof.
  split; [reflexivity|].
  apply (projects_lists_the_projects demo_crypt demo_now 1 "pw" (Some 1) st_voted
           [[VInt 100; VInt 1]] eq_refl).
Defined.

Lemma votes_lists_every_member_witness :
  fst (votes demo_crypt demo_now 1 "pw" None None st_voted) =
    Ok (Some (success_with [[VInt 1; VInt 0; VInt 0]; [VInt 2; VInt 0; VInt 0];
                            [VInt 3; VInt 1; VInt 0]])) /\
  forall m, In m (member_tbl st_voted) ->
    exists r, In r [[VInt 1; VInt 0; VInt 0]; [VInt 2; VInt 0; VInt 0];
                    [VInt 3; VInt 1; VInt 0]] /\
              hd_error r = Some (VInt (m_id m)).
Proof.
  split; [reflexivity|].
  apply (votes_lists_every_member demo_crypt demo_now 1 "pw" None None st_voted
           [[VInt 1; VInt 0; VInt 0]; [VInt 2; VInt 0; VInt 0]; [VInt 3; VInt 1; VInt 0]]
           eq_refl).
Defined.

Lemma actions_lists_the_actions_witness :
  fst (actions demo_crypt demo_now 1 "pw" (Some "support") None (Some 1) st_voted) =
    Ok (Some (success_with
                [[VInt 10; VStr "support"; VInt 100; VInt 1; VInt 1; VInt 0]])) /\
  NoDup [[VInt 10; VStr "support"; VInt 100; VInt 1; VInt 1; VInt 0]].
Proof.
  split; [reflexivity|].
  apply (actions_lists_the_actions demo_crypt demo_now 1 "pw" (Some "support") None (Some 1)
           st_voted [[VInt 10; VStr "support"; VInt 100; VInt 1; VInt 1; VInt 0]] eq_refl).
Defined.

Lemma recorded_action_is_listed_witness :
  fst (demo_call (Protest t2019 2 "x" 11 101 (Some 1)) st_voted) = Ok (Some success) /\
  exists l,
    (project_exists 101 st_voted = false -> Some 1 = Some l) /\
    (forall now' member' password' rows,
       fst (actions demo_crypt now' member' password' None None None
              (snd (demo_call (Protest t2019 2 "x" 11 101 (Some 1)) st_voted)))
         = Ok (Some (success_with rows)) ->
       In [VInt 11; VStr "protest"; VInt 101; VInt l; VInt 0; VInt 0] rows) /\
    (forall calls now' member' password' rows,
       fst (actions demo_crypt now' member' password' None None None
              (after_calls demo_crypt calls
                 (snd (demo_call (Protest t2019 2 "x" 11 101 (Some 1)) st_voted))))
         = Ok (Some (success_with rows)) ->
       exists upvotes downvotes,
         0 <= upvotes /\ 0 <= downvotes /\
         In [VInt 11; VStr "protest"; VInt 101; VInt l; VInt upvotes; VInt downvotes] rows).
Proof.
  split; [reflexivity|].
  apply (recorded_action_is_listed demo_crypt demo_salt demo_now protest_type
           t2019 2 "x" 11 101 (Some 1) st_voted eq_refl).
Defined.

Lemma run_batch_stops_at_first_exception_witness :
  run_batch demo_crypt [(demo_salt, demo_now, Leader t2019 "pw" 1)] empty_db =
    (Ok [None], st_leader) /\
  run_call demo_crypt (demo_salt, demo_now, Leader t2019 "pw" 1) st_leader =
    (Raise IntegrityError, st_leader) /\
  run_batch demo_crypt
    ([(demo_salt, demo_now, Leader t2019 "pw" 1)] ++
     (demo_salt, demo_now, Leader t2019 "pw" 1) ::
     [(demo_salt, demo_now, Trolls t2019)]) empty_db =
    (Raise IntegrityError, st_leader).
Proof.
  split; [reflexivity|]. split; [reflexivity|].
  apply (run_batch_stops_at_first_exception demo_crypt
           [(demo_salt, demo_now, Leader t2019 "pw" 1)]
           [(demo_salt, demo_now, Trolls t2019)]
           (demo_salt, demo_now, Leader t2019 "pw" 1)
           empty_db st_leader st_leader [None] IntegrityError);
    reflexivity.
Defined.

Lemma trolls_rows_witness :
  NoDup (map m_id (member_tbl st_twice)) /\
  fst (trolls t2019 st_twice) =
    Ok (Some (success_with [[VInt 1; VInt 0; VInt 3; VBool true];
                            [VInt 1; VInt 0; VInt 2; VBool true]])) /\
  forall r, In r [[VInt 1; VInt 0; VInt 3; VBool true];
                  [VInt 1; VInt 0; VInt 2; VBool true]] ->
    exists m a n,
      In m (member_tbl st_twice) /\ In a (action_tbl st_twice) /\
      a_id_member a = m_id m /\ a_upvotes a < a_downvotes a /\
      n = Z.of_nat (List.length
            (filter (fun a' => (a_id_member a' =? m_id m) &&
                               (a_upvotes a' =? a_upvotes a) &&
                               (a_downvotes a' =? a_downvotes a)) (action_tbl st_twice))) /\
      r = [VInt (m_id m); VInt (n * a_upvotes a); VInt (n * a_downvotes a);
           VBool (year (fromtimestamp t2019) <=? year (m_activity_date m))].
Proof.
  assert (N : NoDup (map m_id (member_tbl st_twice))).
  { vm_compute.
    repeat (apply NoDup_cons; [simpl; intuition discriminate|]). apply NoDup_nil. }
  split; [exact N|]. split; [vm_compute; reflexivity|].
  apply (trolls_rows t2019 st_twice
           [[VInt 1; VInt 0; VInt 3; VBool true]; [VInt 1; VInt 0; VInt 2; VBool true]] N).
  vm_compute. reflexivity.
Defined.
